(** * sol-outflow-bot: a shallow embedding of the outflow watcher

    The repository is one Node.js program, [src/index.js], kept together with
    earlier variants of it.  Modelled here:
    - [src/index.js]: the window stores the summed outflow of each
      transaction and classifies that sum with the truncating ("4dp cut")
      five-digit rule; extraction, state, polling loop and trigger;
    - the per-transfer variant: the window stores signatures only and every
      evaluation classifies the transfers of each transaction, one match per
      transaction at most (module [PerTransfer], the evaluation loop);
    - the exact-delta variant: classification of the amount a destination
      really received, which must be an exact multiple of 1e-4 SOL (module
      [ExactDelta], the classifier, the formatter and the match loop;
      [getDestReceivedLamportsFromTx]);
    - the post-balance variant: classification of the balance a destination
      that was empty holds after the transaction, by the digits of its SOL
      amount printed without trailing zeros (module [PostBalance]);
    - the extractors and the outflow test these three variants share (module
      [TransferList]).

    Modelling choices.
    - Lamport amounts, balances, indices and the configured counts are
      integers ([Z]).  JavaScript carries them in doubles; below 2^53 the
      operations used here (absolute value, division by 1e5 followed by
      [Math.floor], remainder, sum and difference) coincide with the integer
      ones.  [NaN] and the infinities exist only as results of [Number(..)]
      ([JsNum]).
    - [MIN_SOL] and [MAX_SOL] are rationals and the range test is exact.
    - Transaction records are JSON-like values ([JsVal]) extended with
      web3.js [PublicKey] objects.
    - Library and runtime functions (base64, bs58, web3.js decoders, string
      conversions) are fields of the class [Platform].
    - The polling loop is a function from the answers of the outside world in
      one cycle ([Env]) to a state transformer that records the effects of the
      cycle in a trace. *)

From Stdlib Require Import ZArith String Ascii Bool Lia QArith DecimalString List.
From Stdlib Require DecimalN DecimalPos.
Import ListNotations.
Open Scope Z_scope.

Set Implicit Arguments.
Set Warnings "-register-all".

(** ** JavaScript values, exceptions *)

(** Result of [Number(v)]. *)
Inductive JsNum : Type :=
| Fin (z : Z)
| NaN
| PosInf
| NegInf.

(** Values found in a transaction record. [JPubkey s] is a web3.js
    [PublicKey] whose [toBase58()] is [s]. *)
Inductive JsVal : Type :=
| JUndefined
| JNull
| JBool (b : bool)
| JNum (z : Z)
| JStr (s : string)
| JArr (xs : list JsVal)
| JObj (fields : list (string * JsVal))
| JPubkey (base58 : string).

(** A computation that returns or throws. *)
Inductive Exc (A : Type) : Type :=
| Ok (a : A)
| Throw (msg : string).
Arguments Ok {A} a.
Arguments Throw {A} msg.

Definition exc_bind {A B} (m : Exc A) (k : A -> Exc B) : Exc B :=
  match m with
  | Ok a => k a
  | Throw e => Throw e
  end.

(** [try { m } catch { h }] *)
Definition exc_catch {A} (m : Exc A) (h : A) : A :=
  match m with
  | Ok a => a
  | Throw _ => h
  end.

Definition returns {A} (m : Exc A) : bool :=
  match m with
  | Ok _ => true
  | Throw _ => false
  end.

Declare Scope exc_scope.
Delimit Scope exc_scope with exc.
Notation "'let!' x ':=' m 'in' k" := (exc_bind m (fun x => k))
  (at level 10, x pattern, m at level 100, k at level 200) : exc_scope.

(** Truthiness. *)
Definition truthy (v : JsVal) : bool :=
  match v with
  | JUndefined | JNull => false
  | JBool b => b
  | JNum z => negb (z =? 0)
  | JStr s => negb (s =? "")%string
  | JArr _ | JObj _ | JPubkey _ => true
  end.

(** [a || b] *)
Definition js_or (a b : JsVal) : JsVal := if truthy a then a else b.

Definition nullish (v : JsVal) : bool :=
  match v with
  | JUndefined | JNull => true
  | _ => false
  end.

Definition lookupField (name : string) (fields : list (string * JsVal)) : JsVal :=
  match find (fun p => (fst p =? name)%string) fields with
  | Some p => snd p
  | None => JUndefined
  end.

(** [v?.name].  None of the property names read by the program is defined on
    a prototype of plain data, except [length]. *)
Definition optProp (v : JsVal) (name : string) : JsVal :=
  match v with
  | JObj fs => lookupField name fs
  | JArr xs => if (name =? "length")%string then JNum (Z.of_nat (length xs)) else JUndefined
  | JStr s => if (name =? "length")%string then JNum (Z.of_nat (String.length s)) else JUndefined
  | _ => JUndefined
  end.

(** [v.name]: a TypeError on [undefined] and [null]. *)
Definition getProp (v : JsVal) (name : string) : Exc JsVal :=
  if nullish v then Throw "TypeError: cannot read properties of undefined or null"
  else Ok (optProp v name).

Fixpoint chars (s : string) : list JsVal :=
  match s with
  | EmptyString => []
  | String c rest => JStr (String c EmptyString) :: chars rest
  end.

(** The elements visited by [for (const x of v)] and by [...v]: arrays and
    strings are iterable, every other value of the model is a TypeError. *)
Definition iterate (v : JsVal) : Exc (list JsVal) :=
  match v with
  | JArr xs => Ok xs
  | JStr s => Ok (chars s)
  | _ => Throw "TypeError: value is not iterable"
  end.

(** [a === b] between a value and a string. *)
Definition strictEqStr (v : JsVal) (s : string) : bool :=
  match v with
  | JStr t => (t =? s)%string
  | _ => false
  end.

Definition dec (z : Z) : string := NilZero.string_of_uint (N.to_uint (Z.to_N z)).

(** [xs[i]] for a number [i]. *)
Definition indexVal (v : JsVal) (i : nat) : JsVal :=
  match v with
  | JArr xs => nth i xs JUndefined
  | JStr s => nth i (chars s) JUndefined
  | JObj fs => lookupField (dec (Z.of_nat i)) fs
  | _ => JUndefined
  end.

(** Library and runtime functions the program calls. *)
Class Platform : Type := {
  (** [Number(s)] for a string *)
  StringToNumber : string -> JsNum;
  (** [Number(v)] for an array or an object *)
  ObjectToNumber : JsVal -> JsNum;
  (** [String(v)] *)
  ToString : JsVal -> string;
  (** the array index denoted by a property key that is not a number *)
  ToArrayIndex : JsVal -> option nat;
  (** [Buffer.from(v, "base64")] *)
  Buffer_from_base64 : JsVal -> Exc (list Byte.byte);
  (** [Buffer.from(bs58.decode(v))] *)
  bs58_decode : JsVal -> Exc (list Byte.byte);
  (** [new PublicKey(v).toBase58()] *)
  PublicKey_new : JsVal -> Exc string;
  (** [SystemInstruction.decodeInstructionType], given the account keys and
      the data of the instruction *)
  decodeInstructionType : list string -> list Byte.byte -> Exc string;
  (** [SystemInstruction.decodeTransfer]: source, destination, lamports *)
  decodeTransfer : list string -> list Byte.byte -> Exc (string * string * Z);
  (** [SystemInstruction.decodeTransferWithSeed] *)
  decodeTransferWithSeed : list string -> list Byte.byte -> Exc (string * string * Z)
}.

(** [Number(v)] *)
Definition toNumber `{Platform} (v : JsVal) : JsNum :=
  match v with
  | JUndefined => NaN
  | JNull => Fin 0
  | JBool b => Fin (if b then 1 else 0)
  | JNum z => Fin z
  | JStr s => StringToNumber s
  | JArr _ | JObj _ | JPubkey _ => ObjectToNumber v
  end.

Definition isFinite (n : JsNum) : bool :=
  match n with
  | Fin _ => true
  | _ => false
  end.

(** [n <= 0] *)
Definition num_le0 (n : JsNum) : bool :=
  match n with
  | Fin z => z <=? 0
  | NegInf => true
  | NaN | PosInf => false
  end.

(** [Math.abs(n)] *)
Definition num_abs (n : JsNum) : JsNum :=
  match n with
  | Fin z => Fin (Z.abs z)
  | NaN => NaN
  | PosInf | NegInf => PosInf
  end.

(** [n || 0] on a number *)
Definition num_or0 (n : JsNum) : JsNum :=
  match n with
  | NaN => Fin 0
  | _ => n
  end.

(** [String(n).padStart(width, "0")] *)
Fixpoint zeros (n : nat) : string :=
  match n with
  | O => EmptyString
  | S k => String "0"%char (zeros k)
  end.

Definition padStart (width : nat) (s : string) : string :=
  (zeros (width - String.length s) ++ s)%string.

(** ** Configuration and amount helpers ([src/index.js]) *)

Record Config : Type := {
  WATCH_ADDRESS : string;
  MIN_SOL : Q;
  MAX_SOL : Q;
  WINDOW_OUTFLOWS : Z;
  REQUIRED_MATCH : Z;
  SIG_FETCH_LIMIT : Z;
  PREVIEW_DEST_LIMIT : Z
}.

Definition LAMPORTS_PER_SOL : Z := 1000000000.

(** [Math.floor(Math.abs(lamports) / 100000)] *)
Definition scaled4dpCut (lamports : Z) : Z := Z.abs lamports / 100000.

(** [lamportsToSol4String]: SOL with four decimals, cut. *)
Definition lamportsToSol4String (lamports : Z) : string :=
  let scaled := scaled4dpCut lamports in
  let intPart := scaled / 10000 in
  let fracPart := scaled mod 10000 in
  (dec intPart ++ "." ++ padStart 4 (dec fracPart))%string.

(** [isFiveDigitsLamports_4dpCut] *)
Definition isFiveDigitsLamports_4dpCut (lamports : Z) : bool :=
  let scaled := scaled4dpCut lamports in
  scaled <=? 99999.

(** [inSolRangeLamports] *)
Definition inSolRangeLamports (cfg : Config) (lamports : Z) : bool :=
  let sol := (inject_Z (Z.abs lamports) / inject_Z LAMPORTS_PER_SOL)%Q in
  Qle_bool (MIN_SOL cfg) sol && Qle_bool sol (MAX_SOL cfg).

(** ** Transfer extraction ([src/index.js]) *)

(** An element pushed by the extractors, [{ to, lamports }].  The parsed path
    also stores [_type], which nothing reads. *)
Record Transfer : Type := {
  to : JsVal;
  lamports : Z
}.

Section Extraction.
Context `{Platform}.
Local Open Scope exc_scope.

(** The body of [handleParsedIx]: the transfer it pushes, if any. *)
Definition handleParsedIx (watchBase58 : string) (ix : JsVal) : Exc (option Transfer) :=
  if negb (truthy ix) then Ok None else
  let! program := getProp ix "program" in
  let! programId := getProp ix "programId" in
  let prog := js_or program programId in
  let! parsed := getProp ix "parsed" in
  if negb (truthy parsed) || negb (strictEqStr prog "system") then Ok None else
  let! info0 := getProp parsed "info" in
  let info := js_or info0 (JObj []) in
  let! source0 := getProp info "source" in
  let! from := getProp info "from" in
  let! authority := getProp info "authority" in
  let! funder := getProp info "funder" in
  let source := js_or (js_or (js_or source0 from) authority) funder in
  let! destination := getProp info "destination" in
  let! to_ := getProp info "to" in
  let dest := js_or destination to_ in
  if negb (truthy source) || negb (truthy dest) then Ok None else
  if negb (strictEqStr source watchBase58) then Ok None else
  let! lam := getProp info "lamports" in
  let lamports := toNumber (js_or lam (JNum 0)) in
  if negb (isFinite lamports) || num_le0 lamports then Ok None else
  match lamports with
  | Fin z => Ok (Some {| to := dest; lamports := z |})
  | _ => Ok None
  end.

(** [for (const ix of ixs) handleParsedIx(ix)] appending to [out] *)
Fixpoint forParsed (watchBase58 : string) (ixs : list JsVal) (out : list Transfer)
  : Exc (list Transfer) :=
  match ixs with
  | [] => Ok out
  | ix :: rest =>
      let! r := handleParsedIx watchBase58 ix in
      forParsed watchBase58 rest (match r with Some t => out ++ [t] | None => out end)
  end.

(** [for (const innerItem of inner) for (const ix of innerItem.instructions || [])] *)
Fixpoint forParsedInner (watchBase58 : string) (items : list JsVal) (out : list Transfer)
  : Exc (list Transfer) :=
  match items with
  | [] => Ok out
  | innerItem :: rest =>
      let! instructions := getProp innerItem "instructions" in
      let! ixs := iterate (js_or instructions (JArr [])) in
      let! out' := forParsed watchBase58 ixs out in
      forParsedInner watchBase58 rest out'
  end.

(** [extractTransfersFromParsed] *)
Definition extractTransfersFromParsed (parsedTx : JsVal) (watchBase58 : string)
  : Exc (list Transfer) :=
  let outer :=
    js_or (optProp (optProp (optProp parsedTx "transaction") "message") "instructions")
          (JArr []) in
  let! outerIxs := iterate outer in
  let! out := forParsed watchBase58 outerIxs [] in
  let inner := js_or (optProp (optProp parsedTx "meta") "innerInstructions") (JArr []) in
  let! innerItems := iterate inner in
  forParsedInner watchBase58 innerItems out.

(** [k.toBase58()] *)
Definition callToBase58 (v : JsVal) : Exc string :=
  match v with
  | JPubkey s => Ok s
  | _ => Throw "TypeError: toBase58 is not a function"
  end.

Definition hasToBase58 (v : JsVal) : bool :=
  match v with
  | JPubkey _ => true
  | _ => truthy (optProp v "toBase58")
  end.

(** [pubkeyToString] *)
Definition pubkeyToString (k : JsVal) : Exc string :=
  if negb (truthy k) then Ok ""%string else
  match k with
  | JStr s => Ok s
  | _ =>
      if hasToBase58 k then callToBase58 k else
      let pubkey := optProp k "pubkey" in
      if truthy pubkey then
        match pubkey with
        | JStr s => Ok s
        | _ => callToBase58 pubkey
        end
      else Ok (ToString k)
  end.

Fixpoint forPubkeys (ak : list JsVal) (keys : list JsVal) : Exc (list JsVal) :=
  match ak with
  | [] => Ok keys
  | k :: rest =>
      let! s := pubkeyToString k in
      forPubkeys rest (keys ++ [JStr s])
  end.

(** [if (v?.length) keys.push(...v)] *)
Definition pushSpread (v : JsVal) (keys : list JsVal) : Exc (list JsVal) :=
  if truthy (optProp v "length") then
    let! xs := iterate v in Ok (keys ++ xs)
  else Ok keys.

(** [getAllAccountKeysFromTx] *)
Definition getAllAccountKeysFromTx (tx : JsVal) : Exc (list JsVal) :=
  let msg := optProp (optProp tx "transaction") "message" in
  let meta := optProp tx "meta" in
  let ak := js_or (optProp msg "accountKeys") (JArr []) in
  let! aks := iterate ak in
  let! keys := forPubkeys aks [] in
  let la := optProp meta "loadedAddresses" in
  let! keys1 := pushSpread (optProp la "writable") keys in
  pushSpread (optProp la "readonly") keys1.

(** [decodeIxDataToBuffer]: [None] is [null]. *)
Definition decodeIxDataToBuffer (dataStr : JsVal) : option (list Byte.byte) :=
  if negb (truthy dataStr) then None else
  match Buffer_from_base64 dataStr with
  | Ok b64 =>
      if (0 <? length b64)%nat then Some b64
      else exc_catch (exc_bind (bs58_decode dataStr) (fun b => Ok (Some b))) None
  | Throw _ => exc_catch (exc_bind (bs58_decode dataStr) (fun b => Ok (Some b))) None
  end.

(** [keys[i]] on the array of account keys *)
Definition keyAt (keys : list JsVal) (i : JsVal) : JsVal :=
  match i with
  | JNum z => if 0 <=? z then nth (Z.to_nat z) keys JUndefined else JUndefined
  | _ =>
      match ToArrayIndex i with
      | Some n => nth n keys JUndefined
      | None => JUndefined
      end
  end.

Definition SYSTEM_PROGRAM_ID : string := "11111111111111111111111111111111".

(** [(ix.accounts || []).map((ai) => new PublicKey(keys[ai]))] *)
Fixpoint mapPublicKeys (keys : list JsVal) (accounts : list JsVal) : Exc (list string) :=
  match accounts with
  | [] => Ok []
  | ai :: rest =>
      let! pk := PublicKey_new (keyAt keys ai) in
      let! pks := mapPublicKeys keys rest in
      Ok (pk :: pks)
  end.

Definition arrayMapArg (v : JsVal) : Exc (list JsVal) :=
  match v with
  | JArr xs => Ok xs
  | _ => Throw "TypeError: map is not a function"
  end.

(** What the [try] block of [handleCompiledIx] produces. *)
Definition compiledIxTransfer (keys : list JsVal) (watchBase58 : string) (ix : JsVal)
  : Exc (option Transfer) :=
  let! programIdIndex := getProp ix "programIdIndex" in
  let programId := keyAt keys programIdIndex in
  if negb (strictEqStr programId SYSTEM_PROGRAM_ID) then Ok None else
  let! data := getProp ix "data" in
  match decodeIxDataToBuffer data with
  | None => Ok None
  | Some dataBuf =>
      let! accounts := getProp ix "accounts" in
      let! accs := arrayMapArg (js_or accounts (JArr [])) in
      let! metas := mapPublicKeys keys accs in
      let! t := decodeInstructionType metas dataBuf in
      if (t =? "Transfer")%string then
        let! (from, to_, lam) := decodeTransfer metas dataBuf in
        if (from =? watchBase58)%string
        then Ok (Some {| to := JStr to_; lamports := lam |}) else Ok None
      else if (t =? "TransferWithSeed")%string then
        let! (from, to_, lam) := decodeTransferWithSeed metas dataBuf in
        if (from =? watchBase58)%string
        then Ok (Some {| to := JStr to_; lamports := lam |}) else Ok None
      else Ok None
  end.

(** [handleCompiledIx]: the [try] block with its empty [catch]. *)
Definition handleCompiledIx (keys : list JsVal) (watchBase58 : string) (ix : JsVal)
    (acc : Z * list Transfer) : Z * list Transfer :=
  match exc_catch (compiledIxTransfer keys watchBase58 ix) None with
  | Some t => (fst acc + lamports t, snd acc ++ [t])
  | None => acc
  end.

Fixpoint forCompiledInner (keys : list JsVal) (watchBase58 : string) (items : list JsVal)
    (acc : Z * list Transfer) : Exc (Z * list Transfer) :=
  match items with
  | [] => Ok acc
  | innerItem :: rest =>
      let! instructions := getProp innerItem "instructions" in
      let! ixs := iterate (js_or instructions (JArr [])) in
      forCompiledInner keys watchBase58 rest
        (fold_left (fun a ix => handleCompiledIx keys watchBase58 ix a) ixs acc)
  end.

(** [decodeSystemTransfersOutWithSum]: [(lamportsOut, transfersOut)] *)
Definition decodeSystemTransfersOutWithSum (tx : JsVal) (watchBase58 : string)
  : Exc (Z * list Transfer) :=
  let msg := optProp (optProp tx "transaction") "message" in
  let meta := optProp tx "meta" in
  if negb (truthy msg) || negb (truthy meta) then Ok (0, []) else
  let! keys := getAllAccountKeysFromTx tx in
  let outer := js_or (optProp msg "instructions") (JArr []) in
  let inner := js_or (optProp meta "innerInstructions") (JArr []) in
  let! outerIxs := iterate outer in
  let acc := fold_left (fun a ix => handleCompiledIx keys watchBase58 ix a) outerIxs (0, []) in
  let! innerItems := iterate inner in
  forCompiledInner keys watchBase58 innerItems acc.

(** [keys.findIndex((k) => k === watchBase58)] *)
Fixpoint findIndexStr (watchBase58 : string) (keys : list JsVal) (i : nat) : option nat :=
  match keys with
  | [] => None
  | k :: rest => if strictEqStr k watchBase58 then Some i else findIndexStr watchBase58 rest (S i)
  end.

(** [getNetOutLamportsFallback] *)
Definition getNetOutLamportsFallback (tx : JsVal) (watchBase58 : string) : Exc Z :=
  let meta := optProp tx "meta" in
  if negb (truthy meta) then Ok 0 else
  let! keys := getAllAccountKeysFromTx tx in
  match findIndexStr watchBase58 keys 0 with
  | None => Ok 0
  | Some idx =>
      let pre := indexVal (optProp meta "preBalances") idx in
      let post := indexVal (optProp meta "postBalances") idx in
      match pre, post with
      | JNum pre, JNum post =>
          let delta := post - pre in
          if 0 <=? delta then Ok 0 else Ok (- delta)
      | _, _ => Ok 0
      end
  end.

End Extraction.

(** ** Persistent state, window and alert key ([src/index.js]) *)

Record OutflowRecord : Type := {
  signature : string;
  outLamports : Z;
  outflowSol4 : string;
  ts : Z
}.

(** [state]: [None] is [null]. *)
Record State : Type := {
  anchorSig : option string;
  outflows : list OutflowRecord;
  lastAlertKey : option string
}.

(** The initial value of [state], also what [loadState] leaves when the file
    is absent or corrupt. *)
Definition defaultState : State :=
  {| anchorSig := None; outflows := []; lastAlertKey := None |}.

(** [!sig] for a signature or [null] *)
Definition sigMissing (sig : option string) : bool :=
  match sig with
  | None => true
  | Some s => (s =? "")%string
  end.

(** [outflows.map((x) => x.signature).join("|")] *)
Definition makeAlertKey (outflows : list OutflowRecord) : string :=
  String.concat "|" (map signature outflows).

(** [lastAlertKey !== alertKey] *)
Definition keyDiffers (lastAlertKey : option string) (alertKey : string) : bool :=
  match lastAlertKey with
  | Some k => negb (k =? alertKey)%string
  | None => true
  end.

(** [xs.slice(0, n)] *)
Definition slice0 {A} (n : Z) (xs : list A) : list A :=
  if 0 <=? n then firstn (Z.to_nat n) xs
  else firstn (length xs - Z.to_nat (- n)) xs.

(** [w.unshift(r); if (w.length > capacity) w = w.slice(0, capacity)] *)
Definition pushOutflow {A} (capacity : Z) (r : A) (w : list A) : list A :=
  let w' := r :: w in
  if capacity <? Z.of_nat (length w') then slice0 capacity w' else w'.

(** ** The polling loop ([main] of [src/index.js]) *)

Record MatchedLine : Type := {
  sol4 : string;
  destWallet : JsVal
}.

(** The argument of [sendDiscordText]. *)
Record AlertArgs : Type := {
  watch : string;
  matchedLines : list MatchedLine;
  destPreview : list JsVal;
  windowSize : Z;
  inRangeCount : Z;
  fiveDigitsCount : Z
}.

(** Effects of the loop, in the order they happen. *)
Inductive Event : Type :=
| EvSaveState (s : State)
| EvGetSignatures (limit : Z)
| EvGetTransaction (sig : string)
| EvGetParsedTransaction (sig : string)
| EvSendDiscord (a : AlertArgs).

(** What the outside world answers during one cycle.  The signature query is
    asked twice in a triggering cycle, so it has two answers. *)
Record Env : Type := {
  (** [getSignaturesForAddress(watchPk, { limit: SIG_FETCH_LIMIT })], newest first *)
  poll_signatures : Exc (list string);
  (** [getSignaturesForAddress(watchPk, { limit: 1 })] *)
  newest_signatures : Exc (list string);
  (** [getTransaction(sig)]; [JNull] when the node does not know it *)
  getTransaction : string -> Exc JsVal;
  (** [getParsedTransaction(sig)] *)
  getParsedTransaction : string -> Exc JsVal;
  (** whether [axios.post] to the webhook resolves *)
  webhook_ok : bool;
  (** [Date.now()] *)
  now : Z
}.

Record World : Type := {
  state : State;
  trace : list Event
}.

(** State and trace survive an exception, as the mutations of [state] do. *)
Definition M (A : Type) : Type := World -> Exc A * World.

Definition m_ret {A} (a : A) : M A := fun w => (Ok a, w).

Definition m_bind {A B} (m : M A) (k : A -> M B) : M B :=
  fun w =>
    match m w with
    | (Ok a, w') => k a w'
    | (Throw e, w') => (Throw e, w')
    end.

Definition m_lift {A} (e : Exc A) : M A := fun w => (e, w).

Definition m_catch {A} (m : M A) (h : M A) : M A :=
  fun w =>
    match m w with
    | (Ok a, w') => (Ok a, w')
    | (Throw _, w') => h w'
    end.

Definition m_get : M State := fun w => (Ok (state w), w).

Definition m_modify (f : State -> State) : M unit :=
  fun w => (Ok tt, {| state := f (state w); trace := trace w |}).

Definition m_emit (e : Event) : M unit :=
  fun w => (Ok tt, {| state := state w; trace := trace w ++ [e] |}).

Declare Scope m_scope.
Delimit Scope m_scope with m.
Notation "'let!' x ':=' m 'in' k" := (m_bind m (fun x => k))
  (at level 10, x pattern, m at level 100, k at level 200) : m_scope.
Notation "m1 ';;' m2" := (m_bind m1 (fun _ => m2))
  (at level 100, right associativity) : m_scope.

Fixpoint m_for {A} (xs : list A) (body : A -> M unit) : M unit :=
  match xs with
  | [] => m_ret tt
  | x :: rest => m_bind (body x) (fun _ => m_for rest body)
  end.

(** [saveState]: a failed write is swallowed. *)
Definition saveState : M unit :=
  fun w => (Ok tt, {| state := state w; trace := trace w ++ [EvSaveState (state w)] |}).

Definition set_anchorSig (a : option string) (s : State) : State :=
  {| anchorSig := a; outflows := outflows s; lastAlertKey := lastAlertKey s |}.
Definition set_outflows (o : list OutflowRecord) (s : State) : State :=
  {| anchorSig := anchorSig s; outflows := o; lastAlertKey := lastAlertKey s |}.
Definition set_lastAlertKey (k : option string) (s : State) : State :=
  {| anchorSig := anchorSig s; outflows := outflows s; lastAlertKey := k |}.

(** [sigs?.[0]?.signature || null] *)
Definition newestOf (sigs : list string) : option string :=
  match sigs with
  | [] => None
  | s :: _ => if (s =? "")%string then None else Some s
  end.

(** The loop of [fetchNewSignatures]: the signatures before the anchor. *)
Fixpoint freshBefore (anchorSig : string) (sigs : list string) : list string :=
  match sigs with
  | [] => []
  | s :: rest => if (s =? anchorSig)%string then [] else s :: freshBefore anchorSig rest
  end.

(** [fetchNewSignatures] after its query has answered [sigs] *)
Definition newSignatures (sigs : list string) (anchorSig : option string) : list string :=
  match sigs with
  | [] => []
  | _ =>
      if sigMissing anchorSig then []
      else match anchorSig with
           | Some a => freshBefore a sigs
           | None => []
           end
  end.

(** [[...destSet]] after [destSet.add(v)].  Two strings, numbers or booleans
    are the same element when they are equal; objects are never the same
    element as another one. *)
Definition sameValueZero (a b : JsVal) : bool :=
  match a, b with
  | JUndefined, JUndefined => true
  | JNull, JNull => true
  | JBool x, JBool y => Bool.eqb x y
  | JNum x, JNum y => x =? y
  | JStr x, JStr y => (x =? y)%string
  | _, _ => false
  end.

Definition setAdd (v : JsVal) (s : list JsVal) : list JsVal :=
  if existsb (sameValueZero v) s then s else s ++ [v].

Section Loop.
Context `{Platform}.
Variable cfg : Config.
Variable env : Env.
Local Open Scope m_scope.

(** [fetchNewestSignature] *)
Definition fetchNewestSignature : M (option string) :=
  m_emit (EvGetSignatures 1) ;;
  let! sigs := m_lift (newest_signatures env) in
  m_ret (newestOf sigs).

(** [fetchNewSignatures] *)
Definition fetchNewSignatures (anchorSig : option string) : M (list string) :=
  m_emit (EvGetSignatures (SIG_FETCH_LIMIT cfg)) ;;
  let! sigs := m_lift (poll_signatures env) in
  m_ret (newSignatures sigs anchorSig).

(** [!n || n <= 0] *)
Definition noOutflow (n : Z) : bool := (n =? 0) || (n <=? 0).

(** The body of [for (const sig of ordered)]. *)
Definition processSignature (sig : string) : M unit :=
  m_emit (EvGetTransaction sig) ;;
  let! tx := m_lift (getTransaction env sig) in
  let! d := m_lift (decodeSystemTransfersOutWithSum tx (WATCH_ADDRESS cfg)) in
  let lamportsOut := fst d in
  let! outLamports :=
    (if noOutflow lamportsOut
     then m_lift (getNetOutLamportsFallback tx (WATCH_ADDRESS cfg))
     else m_ret lamportsOut) in
  if noOutflow outLamports then m_ret tt else
  m_modify (fun st =>
    set_outflows
      (pushOutflow (WINDOW_OUTFLOWS cfg)
         {| signature := sig;
            outLamports := outLamports;
            outflowSol4 := lamportsToSol4String outLamports;
            ts := now env |}
         (outflows st))
      st).

(** [if (newSigs.length > 0) { ... }] *)
Definition ingest (newSigs : list string) : M unit :=
  match newSigs with
  | [] => m_ret tt
  | newest :: _ =>
      m_modify (set_anchorSig (Some newest)) ;;
      m_for (rev newSigs) processSignature ;;
      saveState
  end.

(** The transfers of a matched transaction: parsed first, compiled decode
    when that gives nothing; each under its own [try]. *)
Definition matchedTransfers (sig : string) : M (list Transfer) :=
  m_emit (EvGetParsedTransaction sig) ;;
  let transfers :=
    exc_catch
      (exc_bind (getParsedTransaction env sig) (fun ptx =>
         if truthy ptx then extractTransfersFromParsed ptx (WATCH_ADDRESS cfg) else Ok []))
      [] in
  match transfers with
  | [] =>
      m_emit (EvGetTransaction sig) ;;
      m_ret (exc_catch
               (exc_bind (getTransaction env sig) (fun tx =>
                  exc_bind (decodeSystemTransfersOutWithSum tx (WATCH_ADDRESS cfg)) (fun d =>
                    Ok (snd d))))
               [])
  | _ => m_ret transfers
  end.

(** [for (const t of transfers) { ... }] of the trigger branch: every transfer
    that passes the two tests is written. *)
Fixpoint collectLines (transfers : list Transfer) (acc : list MatchedLine * list JsVal)
  : list MatchedLine * list JsVal :=
  match transfers with
  | [] => acc
  | t :: rest =>
      if negb (truthy (to t)) || (lamports t =? 0) then collectLines rest acc
      else if negb (inSolRangeLamports cfg (lamports t)) then collectLines rest acc
      else if negb (isFiveDigitsLamports_4dpCut (lamports t)) then collectLines rest acc
      else
        collectLines rest
          (fst acc ++ [{| sol4 := lamportsToSol4String (lamports t); destWallet := to t |}],
           setAdd (to t) (snd acc))
  end.

(** [for (const m of matches) { ... }] *)
Fixpoint collectMatched (matches : list OutflowRecord) (acc : list MatchedLine * list JsVal)
  : M (list MatchedLine * list JsVal) :=
  match matches with
  | [] => m_ret acc
  | m :: rest =>
      let! transfers := matchedTransfers (signature m) in
      collectMatched rest (collectLines transfers acc)
  end.

(** [try { await sendDiscordText(..) } catch (e) { console.error(..) }] *)
Definition sendDiscordText (a : AlertArgs) : M unit :=
  m_emit (EvSendDiscord a) ;;
  m_lift (if webhook_ok env then Ok tt else Throw "webhook request failed").

(** The block guarded by [state.lastAlertKey !== alertKey]. *)
Definition trigger (alertKey : string) (matches : list OutflowRecord)
    (inRangeCount fiveDigitsCount : Z) : M unit :=
  m_modify (set_lastAlertKey (Some alertKey)) ;;
  saveState ;;
  let! collected := collectMatched matches ([], []) in
  let destPreview := slice0 (PREVIEW_DEST_LIMIT cfg) (snd collected) in
  let! st := m_get in
  m_catch
    (sendDiscordText
       {| watch := WATCH_ADDRESS cfg;
          matchedLines := fst collected;
          destPreview := destPreview;
          windowSize := Z.of_nat (length (outflows st));
          inRangeCount := inRangeCount;
          fiveDigitsCount := fiveDigitsCount |})
    (m_ret tt) ;;
  m_modify (set_outflows []) ;;
  m_modify (set_lastAlertKey None) ;;
  let! newest := fetchNewestSignature in
  m_modify (set_anchorSig newest) ;;
  saveState.

(** [considered] and [matches] of the evaluation *)
Definition consideredOf (w : list OutflowRecord) : list OutflowRecord :=
  filter (fun x => inSolRangeLamports cfg (outLamports x)) w.
Definition matchesOf (w : list OutflowRecord) : list OutflowRecord :=
  filter (fun x => isFiveDigitsLamports_4dpCut (outLamports x)) (consideredOf w).

(** [// Evaluate] *)
Definition evaluate : M unit :=
  let! st := m_get in
  if WINDOW_OUTFLOWS cfg <=? Z.of_nat (length (outflows st)) then
    let considered := consideredOf (outflows st) in
    let matches := matchesOf (outflows st) in
    let inRangeCount := Z.of_nat (length considered) in
    let fiveDigitsCount := Z.of_nat (length matches) in
    if REQUIRED_MATCH cfg <=? fiveDigitsCount then
      let alertKey := makeAlertKey (outflows st) in
      if keyDiffers (lastAlertKey st) alertKey
      then trigger alertKey matches inRangeCount fiveDigitsCount
      else m_ret tt
    else m_ret tt
  else m_ret tt.

(** The body of [while (true)]: its [try] block, whose [catch] only logs. *)
Definition cycleBody : M unit :=
  let! st := m_get in
  let! newSigs := fetchNewSignatures (anchorSig st) in
  ingest newSigs ;;
  evaluate.

Definition cycle (w : World) : World := snd (cycleBody w).

(** The start of [main]: the loaded state, then the warm-up when it has no
    anchor.  A failure of the warm-up query ends the process. *)
Definition startup (loaded : State) : M unit :=
  m_modify (fun _ => loaded) ;;
  let! st := m_get in
  if sigMissing (anchorSig st) then
    let! newest := fetchNewestSignature in
    m_modify (set_anchorSig newest) ;;
    m_modify (set_outflows []) ;;
    m_modify (set_lastAlertKey None) ;;
    saveState
  else m_ret tt.

End Loop.


Definition isDispatch (e : Event) : bool :=
  match e with
  | EvSendDiscord _ => true
  | _ => false
  end.

Definition isSave (e : Event) : bool :=
  match e with
  | EvSaveState _ => true
  | _ => false
  end.

(** Queries for the detail of a transaction. *)
Definition isTxRead (e : Event) : bool :=
  match e with
  | EvGetTransaction _ | EvGetParsedTransaction _ => true
  | _ => false
  end.

Definition dispatches (tr : list Event) : list Event := filter isDispatch tr.

(** ** The per-transfer variant: one match per transaction at most *)

Module PerTransfer.

(** [isFiveDigitsTransferLamports] *)
Definition isFiveDigitsTransferLamports (lamports : Z) : bool :=
  let scaled := scaled4dpCut lamports in
  (0 <=? scaled) && (scaled <=? 99999).







End PerTransfer.

(** ** The exact-delta variant *)

Module ExactDelta.

Definition LAMPORTS_PER_SOL_4DP : Z := 100000.

(** [lamportsToSol4ExactString]: [None] is [null]. *)
Definition lamportsToSol4ExactString (deltaLamports : JsNum) : option string :=
  let v := num_abs (num_or0 deltaLamports) in
  if negb (isFinite v) || num_le0 v then None else
  match v with
  | Fin z =>
      if negb (Z.rem z LAMPORTS_PER_SOL_4DP =? 0) then None else
      let scaled := z / LAMPORTS_PER_SOL_4DP in
      let intPart := scaled / 10000 in
      let fracPart := Z.rem scaled 10000 in
      Some (dec intPart ++ "." ++ padStart 4 (dec fracPart))%string
  | _ => None
  end.

(** [isFiveDigitsByDestDeltaExact] *)
Definition isFiveDigitsByDestDeltaExact (deltaLamports : JsNum) : bool :=
  let v := num_abs (num_or0 deltaLamports) in
  if negb (isFinite v) || num_le0 v then false else
  match v with
  | Fin z =>
      if negb (Z.rem z LAMPORTS_PER_SOL_4DP =? 0) then false else
      let scaled := z / LAMPORTS_PER_SOL_4DP in
      (0 <=? scaled) && (scaled <=? 99999)
  | _ => false
  end.

(** Where one turn of the match loop leaves. *)
Inductive Turn : Type :=
| SkipNoDest
| SkipNoReceipt
| SkipOutOfRange
| SkipNotFiveDigits
| SkipSafety
| Matched (line : MatchedLine).

(** [!s] for a string or [null] *)
Definition strMissing (s : option string) : bool :=
  match s with
  | None => true
  | Some x => (x =? "")%string
  end.

(** One turn of [for (const t of transfers || [])]; [recvLamports] is the
    result of [getDestReceivedLamportsFromTx], [None] for [null]. *)
Definition turn (cfg : Config) (t : Transfer) (recvLamports : option Z) : Turn :=
  if negb (truthy (to t)) then SkipNoDest else
  match recvLamports with
  | None => SkipNoReceipt
  | Some recv =>
      if recv =? 0 then SkipNoReceipt
      else if negb (inSolRangeLamports cfg recv) then SkipOutOfRange
      else if negb (isFiveDigitsByDestDeltaExact (Fin recv)) then SkipNotFiveDigits
      else
        let sol4 := lamportsToSol4ExactString (Fin recv) in
        if strMissing sol4 then SkipSafety
        else match sol4 with
             | Some s => Matched {| sol4 := s; destWallet := to t |}
             | None => SkipSafety
             end
  end.

End ExactDelta.

(** The window after the records [rs] were inserted one after the other,
    oldest first, as the loop over [ordered] does. *)
Definition insertAll {A} (capacity : Z) (rs : list A) (w : list A) : list A :=
  fold_left (fun acc r => pushOutflow capacity r acc) rs w.

(** ** Vocabulary of the statements *)

(** The trace of [w'] is the trace of [w] followed by events that all satisfy
    [E]. *)
Definition extendsWith (E : Event -> bool) (w w' : World) : Prop :=
  exists evs, trace w' = trace w ++ evs /\ forallb E evs = true.

(** What the insertion loop may do to the world: the anchor and the alert key
    stay, the window stays within a capacity it was within, and only
    transaction details are queried. *)
Definition insertionStep (cfg : Config) (w w' : World) : Prop :=
  anchorSig (state w') = anchorSig (state w)
  /\ lastAlertKey (state w') = lastAlertKey (state w)
  /\ (Z.of_nat (length (outflows (state w))) <= WINDOW_OUTFLOWS cfg ->
      Z.of_nat (length (outflows (state w'))) <= WINDOW_OUTFLOWS cfg)
  /\ extendsWith isTxRead w w'.


(** [w] with more events in its trace. *)
Definition logged (w : World) (evs : list Event) : World :=
  {| state := state w; trace := trace w ++ evs |}.

(** The answer of the poll for the anchor [a]; nothing when the query fails. *)
Definition polled (env : Env) (a : option string) : list string :=
  match poll_signatures env with
  | Ok sigs => newSignatures sigs a
  | Throw _ => []
  end.





(** The three tests that lead [evaluate] into the trigger block: the window
    is full, enough of its records match, and the alert key is not the stored
    one. *)
Definition thresholdReached (cfg : Config) (st : State) : bool :=
  (WINDOW_OUTFLOWS cfg <=? Z.of_nat (length (outflows st)))
  && (REQUIRED_MATCH cfg <=? Z.of_nat (length (matchesOf cfg (outflows st)))).

Definition triggers (cfg : Config) (st : State) : bool :=
  thresholdReached cfg st && keyDiffers (lastAlertKey st) (makeAlertKey (outflows st)).



(** ** Shapes of transaction records *)





Definition isStr (v : JsVal) : bool :=
  match v with
  | JStr _ => true
  | _ => false
  end.

Definition isPubkey (v : JsVal) : bool :=
  match v with
  | JPubkey _ => true
  | _ => false
  end.




(** ** Matched lines *)

(** A transfer that passes every test of the loop that writes the matched
    lines in [src/index.js]. *)
Definition passesBoth (cfg : Config) (t : Transfer) : bool :=
  truthy (to t) && negb (lamports t =? 0)
  && inSolRangeLamports cfg (lamports t)
  && isFiveDigitsLamports_4dpCut (lamports t).


(** The alerts sent in a trace. *)
Fixpoint alertsOf (tr : list Event) : list AlertArgs :=
  match tr with
  | [] => []
  | EvSendDiscord a :: rest => a :: alertsOf rest
  | _ :: rest => alertsOf rest
  end.

(** ** Sample data

    A platform whose decoders know nothing, the configuration of the
    end-to-end scenario of the specification (capacity 3, threshold 2, range
    0.1 to 20 SOL), and transaction records built the way the RPC node
    returns them. *)

Definition samplePlatform : Platform :=
  {| StringToNumber := fun _ => NaN;
     ObjectToNumber := fun _ => NaN;
     ToString := fun _ => "[object Object]"%string;
     ToArrayIndex := fun _ => None;
     Buffer_from_base64 := fun _ => Ok [];
     bs58_decode := fun _ => Throw "Non-base58 character";
     PublicKey_new := fun v =>
       match v with
       | JStr s => Ok s
       | _ => Throw "Invalid public key input"
       end;
     decodeInstructionType := fun _ _ => Throw "Instruction type incorrect";
     decodeTransfer := fun _ _ => Throw "invalid instruction";
     decodeTransferWithSeed := fun _ _ => Throw "invalid instruction" |}.

Definition sampleConfig : Config :=
  {| WATCH_ADDRESS := "WatchedWallet";
     MIN_SOL := 1 # 10;
     MAX_SOL := 20 # 1;
     WINDOW_OUTFLOWS := 3;
     REQUIRED_MATCH := 2;
     SIG_FETCH_LIMIT := 60;
     PREVIEW_DEST_LIMIT := 10 |}.

(** A parsed system transfer from the watched wallet. *)
Definition parsedTransferIx (dest : string) (amount : Z) : JsVal :=
  JObj [("program", JStr "system");
        ("parsed", JObj [("type", JStr "transfer");
                         ("info", JObj [("source", JStr "WatchedWallet");
                                        ("destination", JStr dest);
                                        ("lamports", JNum amount)])])]%string.

(** A transaction whose outer instructions are [ixs], in which the balance of
    the watched wallet goes from [pre] to [post]. *)
Definition sampleTx (ixs : list JsVal) (pre post : Z) : JsVal :=
  JObj [("transaction",
         JObj [("message",
                JObj [("accountKeys", JArr [JStr "WatchedWallet"]);
                      ("instructions", JArr ixs)])]);
        ("meta",
         JObj [("preBalances", JArr [JNum pre]);
               ("postBalances", JArr [JNum post]);
               ("innerInstructions", JArr [])])]%string.


Definition sampleRecord (sig : string) (amount : Z) : OutflowRecord :=
  {| signature := sig; outLamports := amount;
     outflowSol4 := lamportsToSol4String amount; ts := 0 |}.

(** The window of the scenario: 1.2345, 0.05 and 2.3456 SOL, newest first. *)
Definition sampleWindow : list OutflowRecord :=
  [sampleRecord "s3" 2345600000; sampleRecord "s2" 50000000; sampleRecord "s1" 1234500000]%string.

(** An outside world in which nothing new happens: every transaction carries
    the given transfers, the webhook answers as told. *)
Definition sampleEnv (poll newest : list string) (ixs : list JsVal) (delivered : bool) : Env :=
  {| poll_signatures := Ok poll;
     newest_signatures := Ok newest;
     getTransaction := fun _ => Ok (sampleTx ixs 5000000000 3765500000);
     getParsedTransaction := fun _ => Ok (sampleTx ixs 5000000000 3765500000);
     webhook_ok := delivered;
     now := 0 |}.

Definition sampleWorld (anchor : option string) (w : list OutflowRecord)
    (key : option string) : World :=
  {| state := {| anchorSig := anchor; outflows := w; lastAlertKey := key |};
     trace := [] |}.

(** ** Vocabulary of the further properties *)

(** The state last handed to [saveState] in a trace, after [acc]. *)
Definition lastSavedFrom (acc : option State) (tr : list Event) : option State :=
  fold_left (fun a e => match e with EvSaveState st => Some st | _ => a end) tr acc.

Definition lastSaved (tr : list Event) : option State := lastSavedFrom None tr.

(** The character [c] does not occur in [s]. *)
Fixpoint lacks (c : ascii) (s : string) : bool :=
  match s with
  | EmptyString => true
  | String d rest => negb (Ascii.eqb d c) && lacks c rest
  end.

(** The number written by a string of decimal digits, leading zeros allowed;
    0 for any other string. *)
Definition digitsValue (s : string) : Z :=
  match NilEmpty.uint_of_string s with
  | Some d => Z.of_N (N.of_uint d)
  | None => 0
  end.


(** A parsed system transfer as the node returns it. *)
Definition systemTransferIx (item : string * string * Z) : JsVal :=
  let '(source, destination, amount) := item in
  JObj [("program", JStr "system");
        ("parsed", JObj [("type", JStr "transfer");
                         ("info", JObj [("source", JStr source);
                                        ("destination", JStr destination);
                                        ("lamports", JNum amount)])])]%string.

(** A parsed transaction with the given outer transfers and groups of inner
    transfers. *)
Definition parsedTxOf (outer : list (string * string * Z))
    (inner : list (list (string * string * Z))) : JsVal :=
  JObj [("transaction",
         JObj [("message", JObj [("instructions", JArr (map systemTransferIx outer))])]);
        ("meta",
         JObj [("innerInstructions",
                JArr (map (fun group =>
                             JObj [("index", JNum 0);
                                   ("instructions", JArr (map systemTransferIx group))])
                          inner))])]%string.

(** The transfers of the watched wallet among such items: a source equal to
    the watched address, a destination, a positive amount. *)
Definition outgoing (watchBase58 : string) (items : list (string * string * Z))
  : list Transfer :=
  map (fun item => {| to := JStr (snd (fst item)); lamports := snd item |})
      (filter (fun item =>
                 (fst (fst item) =? watchBase58)%string
                 && negb (fst (fst item) =? "")%string
                 && negb (snd (fst item) =? "")%string
                 && (0 <? snd item))
              items).

(** The text of an account key that is a string or a [PublicKey]. *)
Definition keyText (k : JsVal) : string :=
  match k with
  | JStr s => s
  | JPubkey s => s
  | _ => EmptyString
  end.


(** A compiled transaction with one system instruction per entry of
    [datas], from the watched wallet to [dest], and two loaded addresses. *)
Definition compiledTx (dest : string) (datas : list string) : JsVal :=
  JObj [("transaction",
         JObj [("message",
                JObj [("accountKeys",
                       JArr [JStr "WatchedWallet"; JPubkey dest; JStr SYSTEM_PROGRAM_ID]);
                      ("instructions",
                       JArr (map (fun d => JObj [("programIdIndex", JNum 2);
                                                 ("accounts", JArr [JNum 0; JNum 1]);
                                                 ("data", JStr d)])
                                 datas))])]);
        ("meta",
         JObj [("loadedAddresses",
                JObj [("writable", JArr [JStr "LoadedW"]);
                      ("readonly", JArr [JStr "LoadedR"])])])]%string.

(** A window record as the insertion loop builds it: a positive amount and
    the amount's 4-decimal string. *)
Definition recordOk (r : OutflowRecord) : Prop :=
  0 < outLamports r /\ outflowSol4 r = lamportsToSol4String (outLamports r).

(** What the body of the insertion loop computes for one signature before it
    touches the window: the record to insert, none when the transaction is no
    outflow, or the exception of the fetch or of the decode. *)
Definition outflowOf `{Platform} (cfg : Config) (env : Env) (sig : string)
  : Exc (option OutflowRecord) :=
  exc_bind (getTransaction env sig) (fun tx =>
  exc_bind (decodeSystemTransfersOutWithSum tx (WATCH_ADDRESS cfg)) (fun d =>
  exc_bind (if noOutflow (fst d)
            then getNetOutLamportsFallback tx (WATCH_ADDRESS cfg)
            else Ok (fst d)) (fun outLamports =>
  Ok (if noOutflow outLamports then None
      else Some {| signature := sig;
                   outLamports := outLamports;
                   outflowSol4 := lamportsToSol4String outLamports;
                   ts := now env |})))).

(** The records of the signatures [sigs], in their order. *)
Definition recordsOf `{Platform} (cfg : Config) (env : Env) (sigs : list string)
  : list OutflowRecord :=
  flat_map (fun sig => match outflowOf cfg env sig with
                       | Ok (Some r) => [r]
                       | _ => []
                       end) sigs.

(** The bounds an alert is sent with. *)
Definition alertWithinBounds (cfg : Config) (a : AlertArgs) : Prop :=
  watch a = WATCH_ADDRESS cfg
  /\ REQUIRED_MATCH cfg <= fiveDigitsCount a
  /\ fiveDigitsCount a <= inRangeCount a
  /\ inRangeCount a <= windowSize a
  /\ WINDOW_OUTFLOWS cfg <= windowSize a.

(** A signature as the node prints it: not empty and without the separator
    of the alert key (base58 has no ["|"]). *)
Definition plainSig (sig : string) : bool :=
  negb (sig =? "")%string && lacks "|"%char sig.

(** What the matched-lines loop keeps true of its two outputs, the lines and
    the set of destinations: the set holds destinations of lines only, no
    address twice, and the address of every line. *)
Definition previewInv (acc : list MatchedLine * list JsVal) : Prop :=
  (forall v, In v (snd acc) -> In v (map destWallet (fst acc)))
  /\ (forall s, (length (filter (sameValueZero (JStr s)) (snd acc)) <= 1)%nat)
  /\ (forall l, In l (fst acc) -> isStr (destWallet l) = true -> In (destWallet l) (snd acc)).

(** ** Extraction in the per-transfer and exact-delta variants

    [extractTransfersFromParsed], [decodeSystemTransfersOutCompiled] and
    [isOutflowTx] have the same text in both variants; [pubkeyToString],
    [getAllAccountKeysFromTx] and [decodeIxDataToBuffer] are those of
    [src/index.js]. *)

Module TransferList.
Section TransferList.
Context `{Platform}.
Local Open Scope exc_scope.

(** The body of [handleParsedIx]: only [ix.program] names the program and only
    [info.source] and [info.from] the sender. *)
Definition handleParsedIx (watchBase58 : string) (ix : JsVal) : Exc (option Transfer) :=
  if negb (truthy ix) then Ok None else
  let! prog := getProp ix "program" in
  let! parsed := getProp ix "parsed" in
  if negb (strictEqStr prog "system") || negb (truthy parsed) then Ok None else
  let! info0 := getProp parsed "info" in
  let info := js_or info0 (JObj []) in
  let! source0 := getProp info "source" in
  let! from := getProp info "from" in
  let source := js_or source0 from in
  let! destination := getProp info "destination" in
  let! to_ := getProp info "to" in
  let dest := js_or destination to_ in
  let! lam := getProp info "lamports" in
  let lamports := toNumber (js_or lam (JNum 0)) in
  if negb (truthy source) || negb (truthy dest) then Ok None else
  if negb (strictEqStr source watchBase58) then Ok None else
  if negb (isFinite lamports) || num_le0 lamports then Ok None else
  match lamports with
  | Fin z => Ok (Some {| to := dest; lamports := z |})
  | _ => Ok None
  end.

Fixpoint forParsed (watchBase58 : string) (ixs : list JsVal) (out : list Transfer)
  : Exc (list Transfer) :=
  match ixs with
  | [] => Ok out
  | ix :: rest =>
      let! r := handleParsedIx watchBase58 ix in
      forParsed watchBase58 rest (match r with Some t => out ++ [t] | None => out end)
  end.

Fixpoint forParsedInner (watchBase58 : string) (items : list JsVal) (out : list Transfer)
  : Exc (list Transfer) :=
  match items with
  | [] => Ok out
  | innerItem :: rest =>
      let! instructions := getProp innerItem "instructions" in
      let! ixs := iterate (js_or instructions (JArr [])) in
      let! out' := forParsed watchBase58 ixs out in
      forParsedInner watchBase58 rest out'
  end.

(** [extractTransfersFromParsed] *)
Definition extractTransfersFromParsed (parsedTx : JsVal) (watchBase58 : string)
  : Exc (list Transfer) :=
  let outer :=
    js_or (optProp (optProp (optProp parsedTx "transaction") "message") "instructions")
          (JArr []) in
  let! outerIxs := iterate outer in
  let! out := forParsed watchBase58 outerIxs [] in
  let inner := js_or (optProp (optProp parsedTx "meta") "innerInstructions") (JArr []) in
  let! innerItems := iterate inner in
  forParsedInner watchBase58 innerItems out.

(** [handleCompiledIx]: the [try] block is the one of [src/index.js] without
    the running sum. *)
Definition handleCompiledIx (keys : list JsVal) (watchBase58 : string) (ix : JsVal)
    (out : list Transfer) : list Transfer :=
  match exc_catch (compiledIxTransfer keys watchBase58 ix) None with
  | Some t => out ++ [t]
  | None => out
  end.

Fixpoint forCompiledInner (keys : list JsVal) (watchBase58 : string) (items : list JsVal)
    (out : list Transfer) : Exc (list Transfer) :=
  match items with
  | [] => Ok out
  | innerItem :: rest =>
      let! instructions := getProp innerItem "instructions" in
      let! ixs := iterate (js_or instructions (JArr [])) in
      forCompiledInner keys watchBase58 rest
        (fold_left (fun a ix => handleCompiledIx keys watchBase58 ix a) ixs out)
  end.

(** [decodeSystemTransfersOutCompiled] *)
Definition decodeSystemTransfersOutCompiled (tx : JsVal) (watchBase58 : string)
  : Exc (list Transfer) :=
  let msg := optProp (optProp tx "transaction") "message" in
  let meta := optProp tx "meta" in
  if negb (truthy msg) || negb (truthy meta) then Ok [] else
  let! keys := getAllAccountKeysFromTx tx in
  let outer := js_or (optProp msg "instructions") (JArr []) in
  let inner := js_or (optProp meta "innerInstructions") (JArr []) in
  let! outerIxs := iterate outer in
  let out := fold_left (fun a ix => handleCompiledIx keys watchBase58 ix a) outerIxs [] in
  let! innerItems := iterate inner in
  forCompiledInner keys watchBase58 innerItems out.

(** [transfers.length > 0] *)
Definition nonEmpty (transfers : list Transfer) : bool := (0 <? length transfers)%nat.

(** [isOutflowTx]: each attempt under its own [try], [false] at the end. *)
Definition isOutflowTx (env : Env) (sig : string) (watchBase58 : string) : M bool :=
  m_bind (m_emit (EvGetParsedTransaction sig)) (fun _ =>
  let found :=
    exc_catch
      (let! ptx := getParsedTransaction env sig in
       if truthy ptx then
         let! transfers := extractTransfersFromParsed ptx watchBase58 in
         Ok (nonEmpty transfers)
       else Ok false)
      false in
  if found then m_ret true else
  m_bind (m_emit (EvGetTransaction sig)) (fun _ =>
  m_ret (exc_catch
           (let! tx := getTransaction env sig in
            let! transfers := decodeSystemTransfersOutCompiled tx watchBase58 in
            Ok (nonEmpty transfers))
           false))).

(** The transfers the evaluation of the per-transfer variant pulls for one
    window entry: parsed first, compiled decode when that gave nothing. *)
Definition windowTransfers (env : Env) (sig : string) (watchBase58 : string)
  : M (list Transfer) :=
  m_bind (m_emit (EvGetParsedTransaction sig)) (fun _ =>
  let transfers :=
    exc_catch
      (let! ptx := getParsedTransaction env sig in
       if truthy ptx then extractTransfersFromParsed ptx watchBase58 else Ok [])
      [] in
  match transfers with
  | [] =>
      m_bind (m_emit (EvGetTransaction sig)) (fun _ =>
      m_ret (exc_catch
               (let! tx := getTransaction env sig in
                decodeSystemTransfersOutCompiled tx watchBase58)
               []))
  | _ => m_ret transfers
  end).

End TransferList.
End TransferList.

(** ** The received amount of the exact-delta variant *)

Section Receipt.
Context `{Platform}.
Local Open Scope exc_scope.

(** [keys.indexOf(v)]: [===], which on the values of the model relates the
    same pairs as [sameValueZero]. *)
Fixpoint indexOfFrom (v : JsVal) (keys : list JsVal) (i : nat) : option nat :=
  match keys with
  | [] => None
  | k :: rest => if sameValueZero k v then Some i else indexOfFrom v rest (S i)
  end.

(** [getDestReceivedLamportsFromTx]: [None] is [null]; the whole body is
    under [try] with [catch { return null }]. *)
Definition getDestReceivedLamportsFromTx (tx : JsVal) (destBase58 : JsVal) : option Z :=
  exc_catch
    (let meta := optProp tx "meta" in
     if negb (truthy (optProp meta "preBalances")) || negb (truthy (optProp meta "postBalances"))
     then Ok None else
     let! keys := getAllAccountKeysFromTx tx in
     if (length keys =? 0)%nat then Ok None else
     match indexOfFrom destBase58 keys 0 with
     | None => Ok None
     | Some idx =>
         let pre := toNumber (indexVal (optProp meta "preBalances") idx) in
         let post := toNumber (indexVal (optProp meta "postBalances") idx) in
         if negb (isFinite pre) || negb (isFinite post) then Ok None else
         match pre, post with
         | Fin pre, Fin post =>
             (* the difference of two finite integers is finite *)
             let delta := post - pre in
             if delta <=? 0 then Ok None else Ok (Some delta)
         | _, _ => Ok None
         end
     end)
    None.

End Receipt.



(** A transaction record in which [dest] received [post - pre] lamports. *)
Definition receiptTx (dest : string) (pre post : Z) : JsVal :=
  JObj [("transaction",
         JObj [("message", JObj [("accountKeys", JArr [JStr "WatchedWallet"; JStr dest])])]);
        ("meta",
         JObj [("preBalances", JArr [JNum 5000000000; JNum pre]);
               ("postBalances", JArr [JNum 3765500000; JNum post])])]%string.

(** ** The post-balance variant

    The rule looks at the balance of the destination after the transaction,
    which must have been empty before, and counts the digits of its SOL
    amount printed without trailing zeros. *)

Module PostBalance.

(** [s.replace(/0+$/, "")] *)
Fixpoint trimTrailingZeros (s : string) : string :=
  match s with
  | EmptyString => EmptyString
  | String c rest =>
      match trimTrailingZeros rest with
      | EmptyString => if (c =? "0")%char then EmptyString else String c EmptyString
      | r => String c r
      end
  end.

(** [s.replace(".", "")]: the first dot only *)
Fixpoint removeFirstDot (s : string) : string :=
  match s with
  | EmptyString => EmptyString
  | String c rest => if (c =? ".")%char then rest else String c (removeFirstDot rest)
  end.

(** [lamportsToSolStringTrim], on [BigInt]: [/] and [%] truncate. *)
Definition lamportsToSolStringTrim (lamports : Z) : string :=
  let v := if lamports <? 0 then - lamports else lamports in
  let base := 1000000000 in
  let intPart := Z.quot v base in
  let frac := trimTrailingZeros (padStart 9 (dec (Z.rem v base))) in
  if (frac =? "")%string then dec intPart
  else (dec intPart ++ "." ++ frac)%string.

(** [digitsCountFromSolString] *)
Definition digitsCountFromSolString (solStr : string) : Z :=
  Z.of_nat (String.length (removeFirstDot solStr)).

(** [isFiveDigitsPostBalanceLamports] *)
Definition isFiveDigitsPostBalanceLamports (postLamports : JsNum) : bool :=
  let abs := num_abs (num_or0 postLamports) in
  if negb (isFinite abs) || num_le0 abs then false else
  match abs with
  | Fin z =>
      let solStr := lamportsToSolStringTrim z in
      let digits := digitsCountFromSolString solStr in
      digits =? 5
  | _ => false
  end.

Section PrePost.
Context `{Platform}.
Local Open Scope exc_scope.


End PrePost.

(** An element of [matches], [{ postSolStr, destWallet, sig }]. *)
Record Match : Type := {
  postSolStr : string;
  destWallet : JsVal;
  sig : string
}.

(** One turn of [for (const t of transfers || [])]: [None] when the turn
    ends in [continue], the pushed element when it ends in [break]; [pp] is
    the result of [getDestPrePostLamportsFromTx]. *)
Definition turn (cfg : Config) (sig : string) (t : Transfer) (pp : option (Z * Z))
  : option Match :=
  if negb (truthy (to t)) then None else
  match pp with
  | None => None
  | Some (pre, post) =>
      if negb (pre =? 0) then None
      else if negb (inSolRangeLamports cfg post) then None
      else if negb (isFiveDigitsPostBalanceLamports (Fin post)) then None
      else Some {| postSolStr := lamportsToSolStringTrim post;
                   destWallet := to t;
                   sig := sig |}
  end.

End PostBalance.

(** A string of decimal digits. *)
Definition isDigits (s : string) : bool :=
  match NilEmpty.uint_of_string s with
  | Some _ => true
  | None => false
  end.

(** The digit a character writes; 0 for any other character. *)
Definition digitOf (c : ascii) : Z := digitsValue (String c EmptyString).

(** * Properties *)

Unset Implicit Arguments.

(** ** Amount classifiers *)

Lemma scaled4dpCut_nonneg (l : Z) : 0 <= scaled4dpCut l.
Proof.
  unfold scaled4dpCut. apply Z.div_pos; lia.
Qed.

Lemma isFiveDigits_cut_below_ten_sol (l : Z) :
  isFiveDigitsLamports_4dpCut l = (Z.abs l <? 10 * LAMPORTS_PER_SOL).
Proof.
  unfold isFiveDigitsLamports_4dpCut, scaled4dpCut, LAMPORTS_PER_SOL.
  destruct (Z.ltb_spec (Z.abs l) (10 * 1000000000)) as [Hlt | Hge].
  - apply Z.leb_le.
    assert (Z.abs l / 100000 < 100000) by (apply Z.div_lt_upper_bound; lia). lia.
  - apply Z.leb_gt.
    assert (100000 <= Z.abs l / 100000) by (apply Z.div_le_lower_bound; lia). lia.
Qed.

(** C3, as stated: 999,990,000 lamports is 0.9999 SOL and scales to 9999,
    not to 99999. *)
Lemma cut_boundary_claimed_lamports_scale_9999 :
  scaled4dpCut 999990000 = 9999
  /\ scaled4dpCut 999990000 <> 99999
  /\ lamportsToSol4String 999990000 = "0.9999"%string.
Proof.
  repeat split; try reflexivity. vm_compute. discriminate.
Qed.

(** C3, amended: the truncating classifier scales by flooring,
    [scaled = floor(|lamports| / 100000)], and matches exactly when
    [scaled <= 99999], that is for amounts below 10 SOL.  9.9999 SOL is
    9,999,900,000 lamports, scales to 99999 and matches, as does every amount
    up to 9,999,999,999 lamports; 10.0000 SOL is 10,000,000,000 lamports,
    scales to 100000 and does not match. *)
Theorem cut_digit_pattern_boundary :
  (forall l, isFiveDigitsLamports_4dpCut l = (scaled4dpCut l <=? 99999))
  /\ (forall l, scaled4dpCut l = Z.abs l / 100000)
  /\ (forall l, isFiveDigitsLamports_4dpCut l = (Z.abs l <? 10 * LAMPORTS_PER_SOL))
  /\ scaled4dpCut 9999900000 = 99999
  /\ lamportsToSol4String 9999900000 = "9.9999"%string
  /\ isFiveDigitsLamports_4dpCut 9999900000 = true
  /\ isFiveDigitsLamports_4dpCut 9999999999 = true
  /\ scaled4dpCut 10000000000 = 100000
  /\ lamportsToSol4String 10000000000 = "10.0000"%string
  /\ isFiveDigitsLamports_4dpCut 10000000000 = false.
Proof.
  split; [reflexivity |].
  split; [reflexivity |].
  split; [exact isFiveDigits_cut_below_ten_sol |].
  repeat split; reflexivity.
Qed.

Lemma exact_guard_fin (z : Z) :
  num_abs (num_or0 (Fin z)) = Fin (Z.abs z).
Proof. reflexivity. Qed.

Lemma exact_isFive_fin (z : Z) :
  ExactDelta.isFiveDigitsByDestDeltaExact (Fin z)
  = negb (Z.abs z <=? 0)
    && (Z.rem (Z.abs z) 100000 =? 0)
    && (Z.abs z / 100000 <=? 99999).
Proof.
  unfold ExactDelta.isFiveDigitsByDestDeltaExact, ExactDelta.LAMPORTS_PER_SOL_4DP.
  rewrite exact_guard_fin. cbn [isFinite num_le0 negb orb].
  destruct (Z.abs z <=? 0) eqn:E0; cbn [negb andb]; [reflexivity |].
  destruct (Z.rem (Z.abs z) 100000 =? 0) eqn:E1; cbn [negb andb]; [| reflexivity].
  assert (0 <= Z.abs z / 100000) by (apply Z.div_pos; lia).
  destruct (Z.leb_spec 0 (Z.abs z / 100000)); [reflexivity | lia].
Qed.

(** C4: under the exact sub-policy an amount that is not an exact multiple of
    100000 lamports never matches (and has no exact 4-decimal string);
    1.23455 SOL is such an amount; an exact multiple within five digits,
    such as 1.2345 SOL = 1,234,500,000 lamports with scaled = 12345,
    matches. *)
Theorem exact_policy_boundary (z : Z) :
  Z.rem (Z.abs z) 100000 <> 0 ->
  ExactDelta.isFiveDigitsByDestDeltaExact (Fin z) = false
  /\ ExactDelta.lamportsToSol4ExactString (Fin z) = None
  /\ ExactDelta.isFiveDigitsByDestDeltaExact (Fin 1234550000) = false
  /\ ExactDelta.isFiveDigitsByDestDeltaExact (Fin 1234500000) = true
  /\ 1234500000 / ExactDelta.LAMPORTS_PER_SOL_4DP = 12345
  /\ ExactDelta.lamportsToSol4ExactString (Fin 1234500000) = Some "1.2345"%string.
Proof.
  intros Hrem.
  assert (Hb : (Z.rem (Z.abs z) 100000 =? 0) = false) by (apply Z.eqb_neq; exact Hrem).
  split.
  - rewrite exact_isFive_fin, Hb. destruct (Z.abs z <=? 0); reflexivity.
  - split.
    + unfold ExactDelta.lamportsToSol4ExactString, ExactDelta.LAMPORTS_PER_SOL_4DP.
      rewrite exact_guard_fin. cbn [isFinite num_le0 negb orb].
      destruct (Z.abs z <=? 0); [reflexivity |]. rewrite Hb. reflexivity.
    + repeat split; reflexivity.
Qed.

Lemma exact_policy_boundary_witness :
  Z.rem (Z.abs 1234550000) 100000 <> 0
  /\ ExactDelta.isFiveDigitsByDestDeltaExact (Fin 1234550000) = false.
Proof.
  split.
  - vm_compute. discriminate.
  - apply (exact_policy_boundary 1234550000). vm_compute. discriminate.
Defined.

(** ** The exact 4-decimal string *)

Lemma padStart4_below_10000 :
  forallb (fun n => (String.length (padStart 4 (dec (Z.of_nat n))) =? 4)%nat)
          (seq 0 (Z.to_nat 10000)) = true.
Proof. vm_compute. reflexivity. Qed.

Lemma padStart4_length (f : Z) :
  0 <= f < 10000 -> String.length (padStart 4 (dec f)) = 4%nat.
Proof.
  intros Hf.
  pose proof padStart4_below_10000 as Hall.
  rewrite forallb_forall in Hall.
  specialize (Hall (Z.to_nat f)).
  rewrite Z2Nat.id in Hall by lia.
  apply Nat.eqb_eq, Hall, in_seq. lia.
Qed.

Lemma append_not_empty (a b : string) : b <> EmptyString -> (a ++ b)%string <> EmptyString.
Proof.
  intros Hb. destruct a; cbn; [exact Hb | discriminate].
Qed.

(** The string is built exactly when the classifier's guards pass. *)
Lemma exact_string_fin (z : Z) :
  (negb (Z.abs z <=? 0) && (Z.rem (Z.abs z) 100000 =? 0)) = true ->
  ExactDelta.lamportsToSol4ExactString (Fin z)
  = Some (dec (Z.abs z / 100000 / 10000) ++ "."
          ++ padStart 4 (dec (Z.rem (Z.abs z / 100000) 10000)))%string.
Proof.
  intros Hg. apply andb_true_iff in Hg as [H0 H1].
  unfold ExactDelta.lamportsToSol4ExactString, ExactDelta.LAMPORTS_PER_SOL_4DP.
  rewrite exact_guard_fin. cbn [isFinite num_le0 negb orb].
  apply negb_true_iff in H0. rewrite H0, H1. reflexivity.
Qed.

Lemma exact_isFive_only_fin (d : JsNum) :
  ExactDelta.isFiveDigitsByDestDeltaExact d = true -> exists z, d = Fin z.
Proof.
  destruct d as [z | | |]; intros Hd; try discriminate Hd.
  now exists z.
Qed.

Lemma exact_string_of_match (d : JsNum) :
  ExactDelta.isFiveDigitsByDestDeltaExact d = true ->
  exists intPart fracPart : string,
    ExactDelta.lamportsToSol4ExactString d = Some (intPart ++ "." ++ fracPart)%string
    /\ String.length fracPart = 4%nat.
Proof.
  intros Hd.
  destruct (exact_isFive_only_fin d Hd) as [z ->].
  rewrite exact_isFive_fin in Hd.
  apply andb_true_iff in Hd as [Hg Hle].
  exists (dec (Z.abs z / 100000 / 10000)),
         (padStart 4 (dec (Z.rem (Z.abs z / 100000) 10000))).
  split; [apply exact_string_fin, Hg |].
  apply padStart4_length.
  assert (0 <= Z.abs z / 100000) by (apply Z.div_pos; lia).
  rewrite Z.rem_mod_nonneg by lia.
  apply Z.mod_pos_bound. lia.
Qed.

Lemma exact_string_present (d : JsNum) :
  ExactDelta.isFiveDigitsByDestDeltaExact d = true ->
  ExactDelta.strMissing (ExactDelta.lamportsToSol4ExactString d) = false.
Proof.
  intros Hd. destruct (exact_string_of_match d Hd) as (i & f & Hs & _).
  rewrite Hs. cbn [ExactDelta.strMissing].
  apply String.eqb_neq, append_not_empty. discriminate.
Qed.

(** C10: on every delta on which [isFiveDigitsByDestDeltaExact] answers true,
    [lamportsToSol4ExactString] returns a string, with four decimals and not
    empty; so no turn of the match loop, whatever the transfer and the
    amount received, leaves through the [if (!sol4) continue] that follows
    the formatting. *)
Theorem exact_string_defined_on_matches (d : JsNum) :
  ExactDelta.isFiveDigitsByDestDeltaExact d = true ->
  (exists intPart fracPart : string,
     ExactDelta.lamportsToSol4ExactString d = Some (intPart ++ "." ++ fracPart)%string
     /\ String.length fracPart = 4%nat)
  /\ ExactDelta.strMissing (ExactDelta.lamportsToSol4ExactString d) = false
  /\ (forall cfg t recvLamports,
        ExactDelta.turn cfg t recvLamports <> ExactDelta.SkipSafety).
Proof.
  intros Hd.
  split; [exact (exact_string_of_match d Hd) |].
  split; [exact (exact_string_present d Hd) |].
  intros cfg t recvLamports. unfold ExactDelta.turn.
  destruct (negb (truthy (to t))); [discriminate |].
  destruct recvLamports as [recv |]; [| discriminate].
  destruct (recv =? 0); [discriminate |].
  destruct (negb (inSolRangeLamports cfg recv)); [discriminate |].
  destruct (ExactDelta.isFiveDigitsByDestDeltaExact (Fin recv)) eqn:Hrecv;
    cbn [negb]; [| discriminate].
  rewrite (exact_string_present (Fin recv) Hrecv).
  destruct (exact_string_of_match (Fin recv) Hrecv) as (i & f & -> & _). discriminate.
Qed.

Lemma exact_string_defined_on_matches_witness :
  ExactDelta.isFiveDigitsByDestDeltaExact (Fin 1234500000) = true
  /\ ExactDelta.strMissing (ExactDelta.lamportsToSol4ExactString (Fin 1234500000)) = false.
Proof.
  split.
  - reflexivity.
  - apply (exact_string_defined_on_matches (Fin 1234500000)). reflexivity.
Defined.

(** ** The window *)

Section Window.
Variable A : Type.
Implicit Types (w rs : list A) (r : A) (capacity : Z).

Lemma firstn_app_firstn_le (n m : nat) (a b : list A) :
  (n <= m)%nat -> firstn n (a ++ firstn m b) = firstn n (a ++ b).
Proof.
  revert n. induction a as [| x a IH]; intros n Hnm; cbn [app].
  - rewrite firstn_firstn. f_equal. lia.
  - destruct n as [| n]; [reflexivity |].
    cbn [firstn]. f_equal. apply IH. lia.
Qed.

Lemma firstn_app_firstn (n : nat) (a b : list A) :
  firstn n (a ++ firstn n b) = firstn n (a ++ b).
Proof. apply firstn_app_firstn_le. lia. Qed.

Lemma pushOutflow_firstn capacity r w :
  0 <= capacity ->
  pushOutflow capacity r w = firstn (Z.to_nat capacity) (r :: w).
Proof.
  intros Hcap. unfold pushOutflow, slice0.
  destruct (Z.ltb_spec capacity (Z.of_nat (length (r :: w)))) as [Hlt | Hge].
  - destruct (Z.leb_spec 0 capacity); [reflexivity | lia].
  - symmetry. apply firstn_all2. lia.
Qed.

Lemma insertAll_firstn capacity rs w :
  Z.of_nat (length w) <= capacity ->
  insertAll capacity rs w = firstn (Z.to_nat capacity) (rev rs ++ w).
Proof.
  intros Hlen.
  assert (Hcap : 0 <= capacity) by lia.
  revert w Hlen. induction rs as [| r rs IH]; intros w Hlen.
  - cbn. symmetry. apply firstn_all2. lia.
  - cbn [insertAll fold_left rev]. fold (insertAll capacity rs (pushOutflow capacity r w)).
    rewrite IH.
    + rewrite pushOutflow_firstn by exact Hcap.
      rewrite firstn_app_firstn, <- app_assoc. reflexivity.
    + rewrite pushOutflow_firstn by exact Hcap.
      rewrite length_firstn. lia.
Qed.

Lemma pushOutflow_length capacity r w :
  Z.of_nat (length w) <= capacity ->
  Z.of_nat (length (pushOutflow capacity r w)) <= capacity.
Proof.
  intros Hlen. rewrite pushOutflow_firstn by lia. rewrite length_firstn. lia.
Qed.

End Window.

(** ** The loop, step by step *)

Section LoopFacts.
Context `{Platform}.
Variable cfg : Config.
Variable env : Env.

Lemma extendsWith_refl E w : extendsWith E w w.
Proof. exists []. rewrite app_nil_r. split; reflexivity. Qed.

Lemma extendsWith_trans E w1 w2 w3 :
  extendsWith E w1 w2 -> extendsWith E w2 w3 -> extendsWith E w1 w3.
Proof.
  intros (e1 & H1 & F1) (e2 & H2 & F2). exists (e1 ++ e2). split.
  - rewrite H2, H1, app_assoc. reflexivity.
  - rewrite forallb_app, F1, F2. reflexivity.
Qed.

Lemma insertionStep_refl w : insertionStep cfg w w.
Proof.
  repeat split; try reflexivity; auto using extendsWith_refl.
Qed.

Lemma insertionStep_trans w1 w2 w3 :
  insertionStep cfg w1 w2 -> insertionStep cfg w2 w3 -> insertionStep cfg w1 w3.
Proof.
  intros (A1 & K1 & L1 & E1) (A2 & K2 & L2 & E2).
  repeat split.
  - congruence.
  - congruence.
  - auto.
  - eapply extendsWith_trans; eauto.
Qed.

Lemma matchedTransfers_spec sig w :
  exists transfers evs,
    matchedTransfers cfg env sig w
    = (Ok transfers, {| state := state w; trace := trace w ++ evs |})
    /\ forallb isTxRead evs = true.
Proof.
  unfold matchedTransfers, m_bind, m_emit, m_ret. cbn [state trace].
  destruct (exc_catch _ _) as [| t ts].
  - eexists. exists [EvGetParsedTransaction sig; EvGetTransaction sig].
    split; [| reflexivity].
    cbn [state trace]. rewrite <- app_assoc. reflexivity.
  - exists (t :: ts), [EvGetParsedTransaction sig]. split; reflexivity.
Qed.

Lemma collectMatched_spec matches acc w :
  exists collected evs,
    collectMatched cfg env matches acc w
    = (Ok collected, {| state := state w; trace := trace w ++ evs |})
    /\ forallb isTxRead evs = true.
Proof.
  revert acc w. induction matches as [| m rest IH]; intros acc w.
  - exists acc, []. rewrite app_nil_r. destruct w; split; reflexivity.
  - cbn [collectMatched]. unfold m_bind at 1.
    destruct (matchedTransfers_spec (signature m) w) as (ts & e1 & -> & F1).
    destruct (IH (collectLines cfg ts acc) {| state := state w; trace := trace w ++ e1 |})
      as (c & e2 & -> & F2).
    exists c, (e1 ++ e2). cbn [state trace]. split.
    + rewrite app_assoc. reflexivity.
    + rewrite forallb_app, F1, F2. reflexivity.
Qed.

Lemma sendDiscordText_caught a w :
  m_catch (sendDiscordText env a) (m_ret tt) w
  = (Ok tt, {| state := state w; trace := trace w ++ [EvSendDiscord a] |}).
Proof.
  unfold m_catch, sendDiscordText, m_bind, m_emit, m_lift, m_ret.
  destruct (webhook_ok env); reflexivity.
Qed.

(** The trigger block, written out. *)
Lemma trigger_spec key matches irc fdc w :
  exists collected reads,
    forallb isTxRead reads = true
    /\ let st1 := set_lastAlertKey (Some key) (state w) in
       let args :=
         {| watch := WATCH_ADDRESS cfg;
            matchedLines := fst collected;
            destPreview := slice0 (PREVIEW_DEST_LIMIT cfg) (snd collected);
            windowSize := Z.of_nat (length (outflows (state w)));
            inRangeCount := irc;
            fiveDigitsCount := fdc |} in
       let before :=
         trace w ++ [EvSaveState st1] ++ reads ++ [EvSendDiscord args; EvGetSignatures 1] in
       trigger cfg env key matches irc fdc w
       = match newest_signatures env with
         | Ok sigs =>
             let st2 := {| anchorSig := newestOf sigs; outflows := []; lastAlertKey := None |} in
             (Ok tt, {| state := st2; trace := before ++ [EvSaveState st2] |})
         | Throw e =>
             (Throw e,
              {| state := {| anchorSig := anchorSig (state w); outflows := [];
                             lastAlertKey := None |};
                 trace := before |})
         end.
Proof.
  unfold trigger.
  unfold m_bind at 1. unfold m_modify at 1. cbn [state trace].
  unfold m_bind at 1. unfold saveState at 1. cbn [state trace].
  unfold m_bind at 1.
  match goal with
  | |- context [collectMatched cfg env matches ([], []) ?w1] =>
      destruct (collectMatched_spec matches ([], []) w1) as (c & reads & -> & F)
  end.
  exists c, reads. split; [exact F |].
  cbn [state trace].
  unfold m_bind at 1. unfold m_get at 1. cbn [state trace].
  unfold m_bind at 1. rewrite sendDiscordText_caught. cbn [state trace].
  unfold m_bind at 1. unfold m_modify at 1. cbn [state trace].
  unfold m_bind at 1. unfold m_modify at 1. cbn [state trace].
  unfold m_bind at 1. unfold fetchNewestSignature.
  unfold m_bind at 1. unfold m_emit at 1. cbn [state trace].
  unfold m_bind at 1. unfold m_lift at 1.
  destruct (newest_signatures env) as [sigs | e].
  - unfold m_ret at 1.
    unfold m_bind at 1. unfold m_modify at 1. unfold saveState.
    cbn [state trace set_anchorSig set_outflows set_lastAlertKey anchorSig outflows lastAlertKey length].
    rewrite <- !app_assoc. reflexivity.
  - cbn [state trace set_anchorSig set_outflows set_lastAlertKey anchorSig outflows lastAlertKey length].
    rewrite <- !app_assoc. reflexivity.
Qed.

Lemma evaluate_cases w :
  evaluate cfg env w
  = if triggers cfg (state w)
    then trigger cfg env (makeAlertKey (outflows (state w))) (matchesOf cfg (outflows (state w)))
           (Z.of_nat (length (consideredOf cfg (outflows (state w)))))
           (Z.of_nat (length (matchesOf cfg (outflows (state w))))) w
    else (Ok tt, w).
Proof.
  unfold evaluate, triggers, thresholdReached, m_bind, m_get, m_ret.
  destruct (WINDOW_OUTFLOWS cfg <=? _); cbn [andb]; [| reflexivity].
  destruct (REQUIRED_MATCH cfg <=? _); cbn [andb]; [| reflexivity].
  destruct (keyDiffers _ _); reflexivity.
Qed.

Lemma processSignature_step sig w :
  insertionStep cfg w (snd (processSignature cfg env sig w)).
Proof.
  assert (Hlog : insertionStep cfg w (logged w [EvGetTransaction sig])).
  { repeat split; auto. exists [EvGetTransaction sig]. split; reflexivity. }
  unfold processSignature, m_bind, m_emit, m_lift. cbn [state trace].
  fold (logged w [EvGetTransaction sig]).
  destruct (getTransaction env sig) as [tx | e]; [| exact Hlog].
  destruct (decodeSystemTransfersOutWithSum tx (WATCH_ADDRESS cfg)) as [d | e]; [| exact Hlog].
  assert (Hins : forall out,
             insertionStep cfg w
               (snd ((if noOutflow out then m_ret tt
                      else m_modify (fun st =>
                             set_outflows
                               (pushOutflow (WINDOW_OUTFLOWS cfg)
                                  {| signature := sig; outLamports := out;
                                     outflowSol4 := lamportsToSol4String out;
                                     ts := now env |} (outflows st)) st))
                       (logged w [EvGetTransaction sig])))).
  { intros out. destruct (noOutflow out); [exact Hlog |].
    unfold m_modify, logged. cbn [snd state trace].
    repeat split; cbn [state trace set_outflows anchorSig lastAlertKey outflows].
    - apply pushOutflow_length.
    - exists [EvGetTransaction sig]. split; reflexivity. }
  destruct (noOutflow (fst d)).
  - destruct (getNetOutLamportsFallback tx (WATCH_ADDRESS cfg)) as [out | e]; [| exact Hlog].
    apply Hins.
  - unfold m_ret at 1. apply Hins.
Qed.

Lemma for_processSignature_step sigs w :
  insertionStep cfg w (snd (m_for sigs (processSignature cfg env) w)).
Proof.
  revert w. induction sigs as [| sig rest IH]; intros w.
  - apply insertionStep_refl.
  - cbn [m_for]. unfold m_bind.
    pose proof (processSignature_step sig w) as Hstep.
    destruct (processSignature cfg env sig w) as [[[] | e] w1]; cbn [snd] in *.
    + eapply insertionStep_trans; [exact Hstep | apply IH].
    + exact Hstep.
Qed.

Lemma ingest_cons_unfold newest rest w :
  ingest cfg env (newest :: rest) w
  = match m_for (rev (newest :: rest)) (processSignature cfg env)
            {| state := set_anchorSig (Some newest) (state w); trace := trace w |} with
    | (Ok _, w1) => (Ok tt, logged w1 [EvSaveState (state w1)])
    | (Throw e, w1) => (Throw e, w1)
    end.
Proof.
  unfold ingest, m_bind, m_modify, saveState, logged.
  destruct (m_for _ _ _) as [[[] | e] w1]; reflexivity.
Qed.

Lemma ingest_cons newest rest w :
  let w' := snd (ingest cfg env (newest :: rest) w) in
  anchorSig (state w') = Some newest
  /\ lastAlertKey (state w') = lastAlertKey (state w)
  /\ (Z.of_nat (length (outflows (state w))) <= WINDOW_OUTFLOWS cfg ->
      Z.of_nat (length (outflows (state w'))) <= WINDOW_OUTFLOWS cfg)
  /\ extendsWith (fun e => isTxRead e || isSave e) w w'.
Proof.
  intros w'. subst w'. rewrite ingest_cons_unfold.
  set (w0 := {| state := set_anchorSig (Some newest) (state w); trace := trace w |}).
  destruct (for_processSignature_step (rev (newest :: rest)) w0)
    as (Ha & Hk & Hl & evs & Ht & Hf).
  assert (Hweak : forallb (fun e => isTxRead e || isSave e) evs = true).
  { rewrite forallb_forall in *. intros e He. rewrite (Hf e He). reflexivity. }
  destruct (m_for (rev (newest :: rest)) (processSignature cfg env) w0) as [[[] | e] w1];
    unfold logged; cbn [snd state trace] in *.
  - split; [exact Ha |]. split; [exact Hk |]. split; [exact Hl |].
    exists (evs ++ [EvSaveState (state w1)]). split.
    + rewrite Ht, app_assoc. reflexivity.
    + rewrite forallb_app, Hweak. reflexivity.
  - split; [exact Ha |]. split; [exact Hk |]. split; [exact Hl |].
    exists evs. split; [exact Ht | exact Hweak].
Qed.

Lemma cycle_unfold w :
  cycle cfg env w
  = match poll_signatures env with
    | Throw _ => logged w [EvGetSignatures (SIG_FETCH_LIMIT cfg)]
    | Ok sigs =>
        match ingest cfg env (newSignatures sigs (anchorSig (state w)))
                (logged w [EvGetSignatures (SIG_FETCH_LIMIT cfg)]) with
        | (Ok _, w1) => snd (evaluate cfg env w1)
        | (Throw _, w1) => w1
        end
    end.
Proof.
  unfold cycle, cycleBody, fetchNewSignatures, m_bind, m_get, m_emit, m_lift, m_ret, logged.
  cbn [state trace].
  destruct (poll_signatures env) as [sigs | e]; [| reflexivity].
  destruct (ingest cfg env _ _) as [[[] | e] w1]; reflexivity.
Qed.


Lemma dispatches_app a b : dispatches (a ++ b) = dispatches a ++ dispatches b.
Proof. apply filter_app. Qed.

Lemma dispatches_reads reads : forallb isTxRead reads = true -> dispatches reads = [].
Proof.
  induction reads as [| e reads IH]; [reflexivity |].
  cbn [forallb]. intros Hf. apply andb_true_iff in Hf as [He Hr].
  destruct e; try discriminate He; cbn; auto.
Qed.

Lemma dispatches_trigger_trace tr s1 reads a :
  forallb isTxRead reads = true ->
  dispatches (tr ++ [EvSaveState s1] ++ reads ++ [EvSendDiscord a; EvGetSignatures 1])
  = dispatches tr ++ [EvSendDiscord a].
Proof.
  intros Hr. rewrite !dispatches_app, (dispatches_reads reads Hr). reflexivity.
Qed.

Lemma keyDiffers_same k : keyDiffers (Some k) k = false.
Proof. cbn. rewrite String.eqb_refl. reflexivity. Qed.

Lemma evaluate_same_key w :
  lastAlertKey (state w) = Some (makeAlertKey (outflows (state w))) ->
  evaluate cfg env w = (Ok tt, w).
Proof.
  intros Hk. rewrite evaluate_cases. unfold triggers.
  rewrite Hk, keyDiffers_same, andb_false_r. reflexivity.
Qed.

(** What a triggering evaluation leaves, whatever the re-anchoring query
    answers. *)
Lemma evaluate_trigger_effect w :
  triggers cfg (state w) = true ->
  let w' := snd (evaluate cfg env w) in
  outflows (state w') = []
  /\ lastAlertKey (state w') = None
  /\ exists a, dispatches (trace w') = dispatches (trace w) ++ [EvSendDiscord a].
Proof.
  intros Ht w'. subst w'. rewrite evaluate_cases, Ht.
  destruct (trigger_spec (makeAlertKey (outflows (state w)))
              (matchesOf cfg (outflows (state w)))
              (Z.of_nat (length (consideredOf cfg (outflows (state w)))))
              (Z.of_nat (length (matchesOf cfg (outflows (state w))))) w)
    as (c & reads & Hr & Hspec).
  cbn zeta in Hspec. rewrite Hspec.
  destruct (newest_signatures env) as [sigs | e]; cbn [snd state trace outflows lastAlertKey].
  - split; [reflexivity |]. split; [reflexivity |]. eexists.
    rewrite dispatches_app, (dispatches_trigger_trace _ _ _ _ Hr). apply app_nil_r.
  - split; [reflexivity |]. split; [reflexivity |]. eexists.
    apply (dispatches_trigger_trace _ _ _ _ Hr).
Qed.


Lemma dispatches_quiet_extension w w' :
  extendsWith (fun e => isTxRead e || isSave e) w w' ->
  dispatches (trace w') = dispatches (trace w).
Proof.
  intros (evs & -> & Hf). rewrite dispatches_app.
  assert (Hnil : dispatches evs = []).
  { clear - Hf. induction evs as [| e evs IH]; [reflexivity |].
    cbn [forallb] in Hf. apply andb_true_iff in Hf as [He Hr].
    destruct e; try discriminate He; cbn; auto. }
  rewrite Hnil. apply app_nil_r.
Qed.

(** What the insertion phase of a cycle does, whether it completes or not. *)
Lemma ingest_effect newSigs w :
  let w' := snd (ingest cfg env newSigs w) in
  lastAlertKey (state w') = lastAlertKey (state w)
  /\ dispatches (trace w') = dispatches (trace w).
Proof.
  destruct newSigs as [| n rest]; [split; reflexivity |].
  destruct (ingest_cons n rest w) as (_ & Hk & _ & He).
  split; [exact Hk | apply dispatches_quiet_extension, He].
Qed.


End LoopFacts.

(** ** Runs *)

Section Runs.
Context `{Platform}.
Variable cfg : Config.





End Runs.

(** ** Alert deduplication *)

Section Deduplication.
Context `{Platform}.


End Deduplication.


(** ** The trigger transition and a failing delivery *)

Section Delivery.
Context `{Platform}.
Variable cfg : Config.







End Delivery.


(** ** A missing cursor *)

Section NullCursor.
Context `{Platform}.
Variable cfg : Config.






End NullCursor.


(** ** The window within the loop *)

Section WindowInLoop.
Context `{Platform}.
Variable cfg : Config.

Lemma evaluate_window_bound env w :
  Z.of_nat (length (outflows (state w))) <= WINDOW_OUTFLOWS cfg ->
  Z.of_nat (length (outflows (state (snd (evaluate cfg env w))))) <= WINDOW_OUTFLOWS cfg.
Proof.
  intros Hlen. destruct (triggers cfg (state w)) eqn:Ht.
  - destruct (evaluate_trigger_effect cfg env w Ht) as (Ho & _). rewrite Ho. cbn. lia.
  - rewrite evaluate_cases, Ht. exact Hlen.
Qed.

Lemma cycle_window_bound env w :
  Z.of_nat (length (outflows (state w))) <= WINDOW_OUTFLOWS cfg ->
  Z.of_nat (length (outflows (state (cycle cfg env w)))) <= WINDOW_OUTFLOWS cfg.
Proof.
  intros Hlen. rewrite cycle_unfold.
  destruct (poll_signatures env) as [sigs | e]; [| exact Hlen].
  destruct (newSignatures sigs (anchorSig (state w))) as [| n rest].
  - cbn [ingest]. unfold m_ret. apply evaluate_window_bound. exact Hlen.
  - destruct (ingest_cons cfg env n rest (logged w [EvGetSignatures (SIG_FETCH_LIMIT cfg)]))
      as (_ & _ & Hl & _).
    specialize (Hl Hlen).
    destruct (ingest cfg env (n :: rest) _) as [[[] | e] w1]; cbn [snd] in Hl.
    + apply evaluate_window_bound. exact Hl.
    + exact Hl.
Qed.

(** C2: starting from a window within the capacity, after each insertion
    (after the first [k] of any sequence [rs] of records) the window is
    within the capacity and holds the newest records first: it is the
    first [capacity] entries of the inserted records, newest first,
    followed by the old window; once [capacity] records were inserted it is
    exactly the [capacity] most recently inserted ones.  The loop keeps the
    window within the capacity in every cycle. *)
Theorem window_capacity_invariant (A : Type) (capacity : Z) (w0 rs : list A) (k : nat) :
  Z.of_nat (length w0) <= capacity ->
  let inserted := firstn k rs in
  let w := insertAll capacity inserted w0 in
  Z.of_nat (length w) <= capacity
  /\ w = firstn (Z.to_nat capacity) (rev inserted ++ w0)
  /\ (capacity <= Z.of_nat (length inserted) ->
      w = firstn (Z.to_nat capacity) (rev inserted))
  /\ (forall r, insertAll capacity (inserted ++ [r]) w0 = pushOutflow capacity r w)
  /\ (forall env wd,
        Z.of_nat (length (outflows (state wd))) <= WINDOW_OUTFLOWS cfg ->
        Z.of_nat (length (outflows (state (cycle cfg env wd)))) <= WINDOW_OUTFLOWS cfg).
Proof.
  intros Hlen inserted w.
  assert (Hw : w = firstn (Z.to_nat capacity) (rev inserted ++ w0))
    by (apply insertAll_firstn; exact Hlen).
  split; [rewrite Hw, length_firstn; lia |].
  split; [exact Hw |].
  split.
  - intros Hfull. rewrite Hw. rewrite firstn_app.
    replace (Z.to_nat capacity - length (rev inserted))%nat with 0%nat
      by (rewrite length_rev; lia).
    cbn [firstn]. apply app_nil_r.
  - split.
    + intros r. unfold insertAll. rewrite fold_left_app. reflexivity.
    + intros env wd. apply cycle_window_bound.
Qed.

End WindowInLoop.

Lemma window_capacity_invariant_witness :
  Z.of_nat (length [sampleRecord "s0" 700000000]) <= 3
  /\ insertAll 3 (firstn 3 sampleWindow) [sampleRecord "s0" 700000000]
     = firstn 3 (rev (firstn 3 sampleWindow)).
Proof.
  split; [cbn; lia |].
  apply (window_capacity_invariant (H := samplePlatform) sampleConfig OutflowRecord 3
           [sampleRecord "s0" 700000000] sampleWindow 3); cbn; lia.
Defined.

(** ** The cursor *)

Section Cursor.
Context `{Platform}.
Variable cfg : Config.











End Cursor.


(** ** Transfer extraction does not raise on listed instructions *)

Section ExtractionTotal.
Context `{Platform}.

Lemma getProp_truthy v name : truthy v = true -> getProp v name = Ok (optProp v name).
Proof.
  intros Hv. unfold getProp. destruct v; try reflexivity; discriminate Hv.
Qed.


Lemma js_or_default_truthy v d : truthy d = true -> truthy (js_or v d) = true.
Proof.
  intros Hd. unfold js_or. destruct (truthy v) eqn:Hv; assumption.
Qed.













End ExtractionTotal.

Section ExtractionClaim.
Context `{Platform}.


End ExtractionClaim.



(** ** One match per transaction *)

Section PerTransaction.
Variable cfg : Config.






End PerTransaction.


(** * Further properties of the program *)

(** ** Polling for new signatures *)

Section Polling.

Lemma freshBefore_split a sigs :
  In a sigs ->
  exists older, sigs = freshBefore a sigs ++ a :: older /\ ~ In a (freshBefore a sigs).
Proof.
  induction sigs as [| s rest IH]; intros Hin; [contradiction |].
  cbn [freshBefore]. destruct (String.eqb_spec s a) as [-> | Hne].
  - exists rest. split; [reflexivity | intros []].
  - destruct Hin as [Heq | Hin]; [contradiction |].
    destruct (IH Hin) as (older & Heq & Hnot).
    exists older. split; [cbn; f_equal; exact Heq |].
    intros [Hs | Hr]; [contradiction | exact (Hnot Hr)].
Qed.

Lemma freshBefore_absent a sigs : ~ In a sigs -> freshBefore a sigs = sigs.
Proof.
  induction sigs as [| s rest IH]; intros Hnot; [reflexivity |].
  cbn [freshBefore]. destruct (String.eqb_spec s a) as [-> | Hne].
  - exfalso. apply Hnot. now left.
  - f_equal. apply IH. intros Hin. apply Hnot. now right.
Qed.

Lemma newSignatures_anchor a sigs :
  a <> ""%string -> newSignatures sigs (Some a) = freshBefore a sigs.
Proof.
  intros Ha. unfold newSignatures. destruct sigs as [| s rest]; [reflexivity |].
  cbn [sigMissing]. destruct (String.eqb_spec a ""); [contradiction | reflexivity].
Qed.

Lemma freshBefore_firstn a newer older n :
  ~ In a newer ->
  freshBefore a (firstn n (newer ++ a :: older)) = firstn n newer.
Proof.
  revert n. induction newer as [| s rest IH]; intros n Hnot.
  - destruct n; cbn; [reflexivity |]. rewrite String.eqb_refl. reflexivity.
  - destruct n as [| n]; [reflexivity |].
    cbn [app firstn freshBefore].
    destruct (String.eqb_spec s a) as [-> | Hne]; [exfalso; apply Hnot; now left |].
    f_equal. apply IH. intros Hin. apply Hnot. now right.
Qed.

Lemma in_firstn_in {A} (x : A) n l : In x (firstn n l) -> In x l.
Proof.
  intros Hx. rewrite <- (firstn_skipn n l). apply in_or_app. now left.
Qed.

(** X1: when the cursor occurs in the answer of the node, the poll returns
    exactly the signatures listed before its first occurrence: the answer is
    the new signatures, then the cursor, then older ones, and the cursor is
    not among the new ones. *)
Theorem poll_splits_at_cursor (sigs : list string) (a : string) :
  a <> ""%string ->
  In a sigs ->
  exists older,
    sigs = newSignatures sigs (Some a) ++ a :: older
    /\ ~ In a (newSignatures sigs (Some a)).
Proof.
  intros Ha Hin. rewrite (newSignatures_anchor a sigs Ha). apply freshBefore_split, Hin.
Qed.

(** X2: served the [n] newest entries of a ledger in which [newer] precedes
    the cursor, the poll returns the [n] newest of [newer]: all of them when
    they fit in the page, and only the most recent [n] when more than [n]
    arrived; when the cursor is not in the page at all, everything fetched
    counts as new. *)
Theorem poll_returns_newest_page (newer older sigs : list string) (a : string) (n : nat) :
  a <> ""%string ->
  ~ In a newer ->
  newSignatures (firstn n (newer ++ a :: older)) (Some a) = firstn n newer
  /\ ((length newer < n)%nat ->
      newSignatures (firstn n (newer ++ a :: older)) (Some a) = newer)
  /\ (~ In a sigs -> newSignatures sigs (Some a) = sigs).
Proof.
  intros Ha Hnot. rewrite !(newSignatures_anchor a _ Ha).
  split; [apply freshBefore_firstn, Hnot |].
  split.
  - intros Hlen. rewrite (freshBefore_firstn a newer older n Hnot).
    apply firstn_all2. lia.
  - apply freshBefore_absent.
Qed.

(** X3: after a warm-up that anchors on the newest signature [s] of the
    ledger, with an empty window, a later poll of the grown ledger returns
    only signatures that arrived after the start: none of the history is
    polled. *)
Theorem warmup_skips_history (env0 env : Env) (loaded : State) (w0 : World)
    (s : string) (newer older : list string) (n : nat) :
  sigMissing (anchorSig loaded) = true ->
  s <> ""%string ->
  ~ In s newer ->
  newest_signatures env0 = Ok (firstn 1 (s :: older)) ->
  poll_signatures env = Ok (firstn n (newer ++ s :: older)) ->
  state (snd (startup env0 loaded w0))
  = {| anchorSig := Some s; outflows := []; lastAlertKey := None |}
  /\ polled env (anchorSig (state (snd (startup env0 loaded w0)))) = firstn n newer
  /\ (forall x, In x (polled env (anchorSig (state (snd (startup env0 loaded w0))))) ->
               In x newer).
Proof.
  intros Hmiss Hs Hnot Hnew Hpoll.
  assert (Hst : state (snd (startup env0 loaded w0))
                = {| anchorSig := Some s; outflows := []; lastAlertKey := None |}).
  { unfold startup, fetchNewestSignature, m_bind, m_modify, m_get, m_emit, m_lift, m_ret,
      saveState.
    cbn [state trace]. rewrite Hmiss, Hnew. cbn [firstn newestOf state snd].
    destruct (String.eqb_spec s ""); [contradiction | reflexivity]. }
  assert (Hp : polled env (Some s) = firstn n newer).
  { unfold polled. rewrite Hpoll, (newSignatures_anchor s _ Hs).
    apply freshBefore_firstn, Hnot. }
  rewrite Hst. cbn [anchorSig]. split; [reflexivity |]. split; [exact Hp |].
  intros x Hx. rewrite Hp in Hx. eapply in_firstn_in. exact Hx.
Qed.

End Polling.

Lemma poll_splits_at_cursor_witness :
  "s3"%string <> ""%string
  /\ In "s3"%string ["s5"; "s4"; "s3"; "s2"]%string
  /\ exists older,
       ["s5"; "s4"; "s3"; "s2"]%string
       = newSignatures ["s5"; "s4"; "s3"; "s2"]%string (Some "s3"%string) ++ "s3"%string :: older
       /\ ~ In "s3"%string (newSignatures ["s5"; "s4"; "s3"; "s2"]%string (Some "s3"%string)).
Proof.
  assert (Hne : "s3"%string <> ""%string) by discriminate.
  assert (Hin : In "s3"%string ["s5"; "s4"; "s3"; "s2"]%string) by (cbn; tauto).
  split; [exact Hne |]. split; [exact Hin |].
  exact (poll_splits_at_cursor ["s5"; "s4"; "s3"; "s2"]%string "s3"%string Hne Hin).
Defined.

Lemma poll_returns_newest_page_witness :
  "s3"%string <> ""%string
  /\ ~ In "s3"%string ["s6"; "s5"; "s4"]%string
  /\ newSignatures (firstn 2 (["s6"; "s5"; "s4"] ++ "s3" :: ["s2"]))%string (Some "s3"%string)
     = firstn 2 ["s6"; "s5"; "s4"]%string.
Proof.
  assert (Hne : "s3"%string <> ""%string) by discriminate.
  assert (Hnot : ~ In "s3"%string ["s6"; "s5"; "s4"]%string).
  { cbn. intros Hx. repeat (destruct Hx as [Hx | Hx]; [discriminate Hx |]). exact Hx. }
  split; [exact Hne |]. split; [exact Hnot |].
  exact (proj1 (poll_returns_newest_page ["s6"; "s5"; "s4"]%string ["s2"%string] []
                  "s3"%string 2 Hne Hnot)).
Defined.

Lemma warmup_skips_history_witness :
  sigMissing (anchorSig defaultState) = true
  /\ polled (sampleEnv ["s5"; "s4"; "s3"; "s2"]%string [] [] true)
       (anchorSig (state (snd (startup (sampleEnv [] ["s3"%string] [] true) defaultState
                                 (sampleWorld None [] None)))))
     = firstn 60 ["s5"; "s4"]%string.
Proof.
  split; [reflexivity |].
  apply (warmup_skips_history (sampleEnv [] ["s3"%string] [] true)
           (sampleEnv ["s5"; "s4"; "s3"; "s2"]%string [] [] true)
           defaultState (sampleWorld None [] None) "s3"%string
           ["s5"; "s4"]%string ["s2"%string] 60).
  - reflexivity.
  - discriminate.
  - cbn. intros Hx. repeat (destruct Hx as [Hx | Hx]; [discriminate Hx |]). exact Hx.
  - reflexivity.
  - reflexivity.
Defined.

(** ** The five-digit rules and the 4-decimal strings of the variants *)

Section Classifiers.

(** X4: the five-digit test of the per-transfer variant is the one of
    [src/index.js] (its extra [scaled >= 0] never decides), and the exact
    test of the exact-delta variant is that test restricted to non-zero
    exact multiples of 100000 lamports. *)
Theorem five_digit_rules_agree (l : Z) :
  PerTransfer.isFiveDigitsTransferLamports l = isFiveDigitsLamports_4dpCut l
  /\ ExactDelta.isFiveDigitsByDestDeltaExact (Fin l)
     = isFiveDigitsLamports_4dpCut l && negb (l =? 0) && (Z.rem (Z.abs l) 100000 =? 0).
Proof.
  split.
  - unfold PerTransfer.isFiveDigitsTransferLamports, isFiveDigitsLamports_4dpCut.
    pose proof (scaled4dpCut_nonneg l) as Hs.
    destruct (Z.leb_spec 0 (scaled4dpCut l)); [reflexivity | lia].
  - rewrite exact_isFive_fin. unfold isFiveDigitsLamports_4dpCut, scaled4dpCut.
    replace (Z.abs l <=? 0) with (l =? 0)
      by (destruct (Z.eqb_spec l 0), (Z.leb_spec (Z.abs l) 0); try reflexivity; lia).
    destruct (negb (l =? 0)), (Z.rem (Z.abs l) 100000 =? 0), (Z.abs l / 100000 <=? 99999);
      reflexivity.
Qed.

(** X5: the exact formatter returns a string only for a non-zero exact
    multiple of 100000 lamports, and the string is then the one the
    truncating formatter of [src/index.js] prints for the same amount. *)
Theorem exact_string_agrees_with_cut_string (z : Z) :
  ExactDelta.lamportsToSol4ExactString (Fin z)
  = if negb (z =? 0) && (Z.rem (Z.abs z) 100000 =? 0)
    then Some (lamportsToSol4String z)
    else None.
Proof.
  unfold ExactDelta.lamportsToSol4ExactString, ExactDelta.LAMPORTS_PER_SOL_4DP.
  rewrite exact_guard_fin. cbn [isFinite num_le0 negb orb].
  replace (Z.abs z <=? 0) with (z =? 0)
    by (destruct (Z.eqb_spec z 0), (Z.leb_spec (Z.abs z) 0); try reflexivity; lia).
  destruct (z =? 0); cbn [negb andb]; [reflexivity |].
  destruct (Z.rem (Z.abs z) 100000 =? 0); cbn [negb]; [| reflexivity].
  unfold lamportsToSol4String, scaled4dpCut.
  assert (0 <= Z.abs z / 100000) by (apply Z.div_pos; lia).
  rewrite Z.rem_mod_nonneg by lia. reflexivity.
Qed.

Lemma lacks_dot_digits (d : Decimal.uint) :
  lacks "."%char (NilEmpty.string_of_uint d) = true.
Proof.
  induction d; cbn [NilEmpty.string_of_uint lacks]; try rewrite IHd; reflexivity.
Qed.

Lemma lacks_dot_dec (z : Z) : lacks "."%char (dec z) = true.
Proof.
  unfold dec, NilZero.string_of_uint.
  destruct (N.to_uint (Z.to_N z)) eqn:E; try (rewrite <- E; apply lacks_dot_digits).
  reflexivity.
Qed.

Lemma append_split_at (c : ascii) (a b x y : string) :
  lacks c a = true -> lacks c b = true ->
  (a ++ String c x)%string = (b ++ String c y)%string ->
  a = b /\ x = y.
Proof.
  revert b. induction a as [| d a IH]; intros b Ha Hb Heq.
  - destruct b as [| e b]; cbn in Heq.
    + injection Heq as ->. split; reflexivity.
    + injection Heq as -> _. cbn in Hb. rewrite Ascii.eqb_refl in Hb. discriminate Hb.
  - destruct b as [| e b]; cbn in Heq.
    + injection Heq as -> _. cbn in Ha. rewrite Ascii.eqb_refl in Ha. discriminate Ha.
    + injection Heq as -> Heq. cbn in Ha, Hb.
      apply andb_true_iff in Ha as [_ Ha]. apply andb_true_iff in Hb as [_ Hb].
      destruct (IH b Ha Hb Heq) as [-> ->]. split; reflexivity.
Qed.

Lemma to_uint_nonnil (n : N) : N.to_uint n <> Decimal.Nil.
Proof.
  destruct n as [| p]; [discriminate | apply DecimalPos.Unsigned.to_uint_nonnil].
Qed.

Lemma dec_injective (a b : Z) : 0 <= a -> 0 <= b -> dec a = dec b -> a = b.
Proof.
  intros Ha Hb Heq. unfold dec in Heq.
  pose proof (NilZero.usu (N.to_uint (Z.to_N a)) (to_uint_nonnil _)) as Hua.
  pose proof (NilZero.usu (N.to_uint (Z.to_N b)) (to_uint_nonnil _)) as Hub.
  rewrite Heq in Hua. rewrite Hua in Hub. injection Hub as Hu.
  apply DecimalN.Unsigned.to_uint_inj in Hu. apply Z2N.inj in Hu; lia.
Qed.

Lemma digitsValue_padStart4 :
  forallb (fun n => digitsValue (padStart 4 (dec (Z.of_nat n))) =? Z.of_nat n)
          (seq 0 (Z.to_nat 10000)) = true.
Proof. vm_compute. reflexivity. Qed.

Lemma digitsValue_of_fraction (f : Z) :
  0 <= f < 10000 -> digitsValue (padStart 4 (dec f)) = f.
Proof.
  intros Hf. pose proof digitsValue_padStart4 as Hall.
  rewrite forallb_forall in Hall. specialize (Hall (Z.to_nat f)).
  rewrite Z2Nat.id in Hall by lia. apply Z.eqb_eq, Hall, in_seq. lia.
Qed.

(** X6: [lamportsToSol4String] always prints an integer part, a dot and
    exactly four decimals, and the string determines the truncated amount:
    two amounts print the same string exactly when they agree after the cut
    to 1e-4 SOL (so the sign and everything below 100000 lamports are
    dropped, and nothing else). *)
Theorem cut_string_determines_scaled (l1 l2 : Z) :
  (exists intPart fracPart : string,
     lamportsToSol4String l1 = (intPart ++ "." ++ fracPart)%string
     /\ String.length fracPart = 4%nat
     /\ digitsValue intPart * 10000 + digitsValue fracPart = scaled4dpCut l1)
  /\ (lamportsToSol4String l1 = lamportsToSol4String l2
      <-> scaled4dpCut l1 = scaled4dpCut l2)
  /\ lamportsToSol4String (- l1) = lamportsToSol4String l1.
Proof.
  assert (Hpos : forall l, 0 <= scaled4dpCut l / 10000 /\ 0 <= scaled4dpCut l mod 10000 < 10000).
  { intros l. pose proof (scaled4dpCut_nonneg l). split.
    - apply Z.div_pos; lia.
    - apply Z.mod_pos_bound. lia. }
  assert (Hint : forall z, 0 <= z -> digitsValue (dec z) = z).
  { intros z Hz. unfold digitsValue, dec, NilZero.string_of_uint.
    pose proof (to_uint_nonnil (Z.to_N z)) as Hnn.
    destruct (N.to_uint (Z.to_N z)) eqn:E; try contradiction;
      rewrite <- E, NilEmpty.usu, DecimalN.Unsigned.of_to; apply Z2N.id; exact Hz. }
  split; [| split].
  - exists (dec (scaled4dpCut l1 / 10000)), (padStart 4 (dec (scaled4dpCut l1 mod 10000))).
    destruct (Hpos l1) as [Hi Hf].
    split; [reflexivity |]. split; [apply padStart4_length, Hf |].
    rewrite (Hint _ Hi), (digitsValue_of_fraction _ Hf).
    rewrite Z.mul_comm. symmetry. apply Z.div_mod. lia.
  - split.
    + unfold lamportsToSol4String. intros Heq.
      destruct (Hpos l1) as [Hi1 Hf1]. destruct (Hpos l2) as [Hi2 Hf2].
      apply (append_split_at "."%char) in Heq; try apply lacks_dot_dec.
      destruct Heq as [Hi Hf].
      apply dec_injective in Hi; try assumption.
      assert (Hfe : scaled4dpCut l1 mod 10000 = scaled4dpCut l2 mod 10000).
      { rewrite <- (digitsValue_of_fraction _ Hf1), <- (digitsValue_of_fraction _ Hf2), Hf.
        reflexivity. }
      rewrite (Z.div_mod (scaled4dpCut l1) 10000), (Z.div_mod (scaled4dpCut l2) 10000) by lia.
      rewrite Hi, Hfe. reflexivity.
    + unfold lamportsToSol4String. intros ->. reflexivity.
  - unfold lamportsToSol4String, scaled4dpCut. rewrite Z.abs_opp. reflexivity.
Qed.

End Classifiers.

Lemma cut_string_determines_scaled_witness :
  lamportsToSol4String 1234567890 = lamportsToSol4String (-1234500000)
  /\ scaled4dpCut 1234567890 = scaled4dpCut (-1234500000).
Proof.
  assert (Hs : lamportsToSol4String 1234567890 = lamportsToSol4String (-1234500000))
    by reflexivity.
  split; [exact Hs |].
  exact (proj1 (proj1 (proj2 (cut_string_determines_scaled 1234567890 (-1234500000)))) Hs).
Defined.

(** ** What the extractors return *)

Section ExtractorResults.
Context `{Platform}.

Lemma handleParsedIx_some watchBase58 ix t :
  handleParsedIx watchBase58 ix = Ok (Some t) ->
  0 < lamports t /\ truthy (to t) = true.
Proof.
  unfold handleParsedIx.
  destruct (truthy ix) eqn:Hix; cbn [negb]; [| discriminate].
  rewrite !(getProp_truthy ix _ Hix). cbn [exc_bind].
  destruct (truthy (optProp ix "parsed")) eqn:Hp; cbn [negb orb]; [| discriminate].
  destruct (negb (strictEqStr _ "system")); [discriminate |].
  rewrite (getProp_truthy _ _ Hp). cbn [exc_bind].
  set (info := js_or (optProp (optProp ix "parsed") "info") (JObj [])).
  assert (Hinfo : truthy info = true) by (apply js_or_default_truthy; reflexivity).
  rewrite !(getProp_truthy info _ Hinfo). cbn [exc_bind].
  destruct (truthy (js_or (optProp info "destination") (optProp info "to"))) eqn:Hd;
    [| rewrite orb_true_r; discriminate].
  destruct (negb (truthy _) || negb true); [discriminate |].
  destruct (negb (strictEqStr _ watchBase58)); [discriminate |].
  destruct (toNumber _) as [z | | |]; cbn [isFinite negb orb num_le0]; try discriminate.
  destruct (Z.leb_spec z 0); [discriminate |].
  intros Heq. injection Heq as <-. cbn [lamports to]. split; [lia | exact Hd].
Qed.

Lemma forParsed_positive watchBase58 ixs out out' :
  Forall (fun t => 0 < lamports t /\ truthy (to t) = true) out ->
  forParsed watchBase58 ixs out = Ok out' ->
  Forall (fun t => 0 < lamports t /\ truthy (to t) = true) out'.
Proof.
  revert out. induction ixs as [| ix rest IH]; intros out Hout Heq.
  - cbn in Heq. injection Heq as <-. exact Hout.
  - cbn [forParsed] in Heq.
    destruct (handleParsedIx watchBase58 ix) as [[t |] | e] eqn:Hh; cbn [exc_bind] in Heq;
      [| apply (IH out Hout Heq) | discriminate Heq].
    apply (IH (out ++ [t])); [| exact Heq].
    apply Forall_app. split; [exact Hout |].
    constructor; [apply (handleParsedIx_some _ _ _ Hh) | constructor].
Qed.

Lemma forParsedInner_positive watchBase58 items out out' :
  Forall (fun t => 0 < lamports t /\ truthy (to t) = true) out ->
  forParsedInner watchBase58 items out = Ok out' ->
  Forall (fun t => 0 < lamports t /\ truthy (to t) = true) out'.
Proof.
  revert out. induction items as [| item rest IH]; intros out Hout Heq.
  - cbn in Heq. injection Heq as <-. exact Hout.
  - cbn [forParsedInner] in Heq.
    destruct (getProp item "instructions") as [v | e]; cbn [exc_bind] in Heq;
      [| discriminate Heq].
    destruct (iterate _) as [ixs | e]; cbn [exc_bind] in Heq; [| discriminate Heq].
    destruct (forParsed watchBase58 ixs out) as [out1 | e] eqn:Hf; cbn [exc_bind] in Heq;
      [| discriminate Heq].
    apply (IH out1); [| exact Heq].
    apply (forParsed_positive _ _ _ _ Hout Hf).
Qed.

(** X7: every transfer the structured extractor returns has a positive
    amount and a destination; the matched-lines loops therefore never skip
    one of them for a missing destination or a zero amount: on these
    transfers the loop's test is the range and five-digit tests alone. *)
Theorem parsed_transfers_are_positive (cfg : Config) (tx : JsVal) (watchBase58 : string)
    (out : list Transfer) :
  extractTransfersFromParsed tx watchBase58 = Ok out ->
  Forall (fun t => 0 < lamports t /\ truthy (to t) = true) out
  /\ Forall (fun t => passesBoth cfg t
                      = inSolRangeLamports cfg (lamports t)
                        && isFiveDigitsLamports_4dpCut (lamports t)) out.
Proof.
  intros Heq.
  assert (Hpos : Forall (fun t => 0 < lamports t /\ truthy (to t) = true) out).
  { unfold extractTransfersFromParsed in Heq.
    destruct (iterate _) as [outerIxs | e]; cbn [exc_bind] in Heq; [| discriminate Heq].
    destruct (forParsed watchBase58 outerIxs []) as [out0 | e] eqn:Hf;
      cbn [exc_bind] in Heq; [| discriminate Heq].
    destruct (iterate _) as [innerItems | e]; cbn [exc_bind] in Heq; [| discriminate Heq].
    apply (forParsedInner_positive _ _ _ _ (forParsed_positive _ _ _ _ (Forall_nil _) Hf) Heq). }
  split; [exact Hpos |].
  eapply Forall_impl; [| exact Hpos].
  intros t [Hl Ht]. unfold passesBoth. rewrite Ht.
  destruct (Z.eqb_spec (lamports t) 0); [lia | reflexivity].
Qed.

Lemma handleParsedIx_systemTransfer watchBase58 item :
  handleParsedIx watchBase58 (systemTransferIx item)
  = Ok (match outgoing watchBase58 [item] with
        | t :: _ => Some t
        | [] => None
        end).
Proof.
  destruct item as [[source destination] amount].
  unfold outgoing, handleParsedIx, systemTransferIx.
  destruct (source =? "")%string eqn:Hs, (destination =? "")%string eqn:Hd;
    repeat (cbn [filter map fst snd getProp nullish optProp lookupField find
                 String.eqb Ascii.eqb Bool.eqb exc_bind truthy negb orb andb strictEqStr];
            unfold js_or; rewrite ?Hs, ?Hd, ?andb_false_r, ?orb_true_r);
    try reflexivity.
  destruct (source =? watchBase58)%string; cbn [negb andb]; [| reflexivity].
  destruct (Z.eqb_spec amount 0) as [-> | Ha]; cbn [negb toNumber isFinite num_le0 orb];
    [reflexivity |].
  destruct (Z.leb_spec amount 0), (Z.ltb_spec 0 amount); try lia; reflexivity.
Qed.

Lemma outgoing_cons watchBase58 item items :
  outgoing watchBase58 (item :: items)
  = outgoing watchBase58 [item] ++ outgoing watchBase58 items.
Proof.
  unfold outgoing. cbn [filter]. destruct (_ && _); reflexivity.
Qed.

Lemma forParsed_systemTransfers watchBase58 items out :
  forParsed watchBase58 (map systemTransferIx items) out
  = Ok (out ++ outgoing watchBase58 items).
Proof.
  revert out. induction items as [| item rest IH]; intros out.
  - cbn. rewrite app_nil_r. reflexivity.
  - cbn [map forParsed]. rewrite handleParsedIx_systemTransfer. cbn [exc_bind].
    rewrite IH, (outgoing_cons watchBase58 item rest).
    assert (Hone : outgoing watchBase58 [item] = []
                   \/ exists t, outgoing watchBase58 [item] = [t]).
    { unfold outgoing. cbn [filter]. destruct (_ && _); [right; eexists | left]; reflexivity. }
    destruct Hone as [-> | [t ->]]; [reflexivity |].
    rewrite <- app_assoc. reflexivity.
Qed.

Lemma forParsedInner_systemTransfers watchBase58 groups out :
  forParsedInner watchBase58
    (map (fun group => JObj [("index", JNum 0);
                             ("instructions", JArr (map systemTransferIx group))]%string)
         groups) out
  = Ok (out ++ concat (map (outgoing watchBase58) groups)).
Proof.
  revert out. induction groups as [| g rest IH]; intros out.
  - cbn. rewrite app_nil_r. reflexivity.
  - cbn [map forParsedInner]. 
    change (getProp (JObj [("index"%string, JNum 0);
                           ("instructions"%string, JArr (map systemTransferIx g))])
              "instructions")
      with (Ok (JArr (map systemTransferIx g))).
    cbn [exc_bind js_or truthy iterate].
    rewrite forParsed_systemTransfers. cbn [exc_bind].
    rewrite IH. cbn [concat]. rewrite app_assoc. reflexivity.
Qed.

(** X8: on a parsed transaction made of system transfers, outer and inner,
    the structured extractor returns every transfer whose source is the
    watched address and that has a destination and a positive amount, the
    outer ones first and the inner ones after them, each in its order: none
    is dropped and none is capped. *)
Theorem parsed_extraction_returns_every_transfer (watchBase58 : string)
    (outer : list (string * string * Z)) (inner : list (list (string * string * Z))) :
  extractTransfersFromParsed (parsedTxOf outer inner) watchBase58
  = Ok (outgoing watchBase58 outer ++ concat (map (outgoing watchBase58) inner)).
Proof.
  unfold extractTransfersFromParsed, parsedTxOf.
  cbn [optProp lookupField find fst snd String.eqb Ascii.eqb Bool.eqb js_or truthy iterate
       exc_bind].
  rewrite forParsed_systemTransfers. cbn [exc_bind app].
  apply forParsedInner_systemTransfers.
Qed.

End ExtractorResults.

Lemma parsed_transfers_are_positive_witness :
  extractTransfersFromParsed (H := samplePlatform)
    (parsedTxOf [("WatchedWallet", "DestA", 1234500000); ("Other", "DestB", 5)]%string [])
    "WatchedWallet"
  = Ok [{| to := JStr "DestA"; lamports := 1234500000 |}]
  /\ Forall (fun t => 0 < lamports t /\ truthy (to t) = true)
       [{| to := JStr "DestA"; lamports := 1234500000 |}].
Proof.
  assert (He : extractTransfersFromParsed (H := samplePlatform)
                 (parsedTxOf [("WatchedWallet", "DestA", 1234500000); ("Other", "DestB", 5)]%string
                    [])
                 "WatchedWallet"
               = Ok [{| to := JStr "DestA"; lamports := 1234500000 |}]) by reflexivity.
  split; [exact He |].
  exact (proj1 (parsed_transfers_are_positive (H := samplePlatform) sampleConfig _ _ _ He)).
Defined.

(** ** The compiled decode and the balance fallback *)

Section CompiledResults.
Context `{Platform}.









Lemma forPubkeys_texts ks keys :
  Forall (fun k => isStr k = true \/ isPubkey k = true) ks ->
  forPubkeys ks keys = Ok (keys ++ map (fun k => JStr (keyText k)) ks).
Proof.
  revert keys. induction ks as [| k rest IH]; intros keys Hall.
  - cbn. rewrite app_nil_r. reflexivity.
  - inversion Hall as [| x l Hk Hrest]; subst. cbn [forPubkeys map].
    assert (Hp : pubkeyToString k = Ok (keyText k)).
    { destruct Hk as [Hk | Hk]; destruct k; try discriminate Hk; cbn [keyText].
      - unfold pubkeyToString. destruct (truthy (JStr s)) eqn:Ht; cbn [negb]; [reflexivity |].
        cbn in Ht. apply negb_false_iff, String.eqb_eq in Ht. now subst.
      - reflexivity. }
    rewrite Hp. cbn [exc_bind]. rewrite (IH _ Hrest), <- app_assoc. reflexivity.
Qed.

Lemma pushSpread_array xs keys : pushSpread (JArr xs) keys = Ok (keys ++ xs).
Proof.
  unfold pushSpread. cbn [optProp String.eqb Ascii.eqb Bool.eqb truthy].
  destruct xs as [| x xs]; [cbn; rewrite app_nil_r; reflexivity |].
  destruct (negb (Z.of_nat (length (x :: xs)) =? 0)) eqn:Hl; [reflexivity |].
  apply negb_false_iff, Z.eqb_eq in Hl. cbn [length] in Hl. lia.
Qed.

(** X11: for a transaction whose account keys are strings or [PublicKey]s
    and whose loaded addresses are lists, the resolved key list is the
    static keys as text, then the loaded writable addresses, then the loaded
    readonly ones, in that order: the positions instructions and balances
    refer to. *)
Theorem account_keys_in_ledger_order (tx : JsVal) (ks writable readonly : list JsVal) :
  optProp (optProp (optProp tx "transaction") "message") "accountKeys" = JArr ks ->
  Forall (fun k => isStr k = true \/ isPubkey k = true) ks ->
  optProp (optProp (optProp tx "meta") "loadedAddresses") "writable" = JArr writable ->
  optProp (optProp (optProp tx "meta") "loadedAddresses") "readonly" = JArr readonly ->
  getAllAccountKeysFromTx tx
  = Ok (map (fun k => JStr (keyText k)) ks ++ writable ++ readonly).
Proof.
  intros Hks Hall Hw Hr. unfold getAllAccountKeysFromTx.
  rewrite Hks, Hw, Hr. cbn [js_or truthy iterate exc_bind].
  rewrite (forPubkeys_texts ks [] Hall). cbn [exc_bind app].
  rewrite pushSpread_array. cbn [exc_bind].
  rewrite pushSpread_array, app_assoc. reflexivity.
Qed.

End CompiledResults.



Lemma account_keys_in_ledger_order_witness :
  getAllAccountKeysFromTx (H := samplePlatform) (compiledTx "DestA" [])
  = Ok [JStr "WatchedWallet"; JStr "DestA"; JStr SYSTEM_PROGRAM_ID;
        JStr "LoadedW"; JStr "LoadedR"]%string.
Proof.
  apply (account_keys_in_ledger_order (H := samplePlatform) (compiledTx "DestA" [])
           [JStr "WatchedWallet"; JPubkey "DestA"; JStr SYSTEM_PROGRAM_ID]%string
           [JStr "LoadedW"%string] [JStr "LoadedR"%string]).
  - reflexivity.
  - constructor; [left; reflexivity |]. constructor; [right; reflexivity |].
    constructor; [left; reflexivity |]. constructor.
  - reflexivity.
  - reflexivity.
Defined.

(** ** The insertion loop and the alerts *)

Section Insertion.
Context `{Platform}.
Variable cfg : Config.
Variable env : Env.

Lemma processSignature_outflowOf sig w :
  processSignature cfg env sig w
  = match outflowOf cfg env sig with
    | Ok None => (Ok tt, logged w [EvGetTransaction sig])
    | Ok (Some r) =>
        (Ok tt,
         {| state := set_outflows (pushOutflow (WINDOW_OUTFLOWS cfg) r (outflows (state w)))
                       (state w);
            trace := trace w ++ [EvGetTransaction sig] |})
    | Throw e => (Throw e, logged w [EvGetTransaction sig])
    end.
Proof.
  unfold processSignature, outflowOf, m_bind, m_emit, m_lift, m_ret, m_modify, logged.
  cbn [state trace].
  destruct (getTransaction env sig) as [tx | e]; cbn [exc_bind]; [| reflexivity].
  destruct (decodeSystemTransfersOutWithSum tx (WATCH_ADDRESS cfg)) as [d | e];
    cbn [exc_bind]; [| reflexivity].
  destruct (noOutflow (fst d)).
  - destruct (getNetOutLamportsFallback tx (WATCH_ADDRESS cfg)) as [out | e];
      cbn [exc_bind]; [| reflexivity].
    destruct (noOutflow out); reflexivity.
  - cbn [exc_bind]. destruct (noOutflow (fst d)); reflexivity.
Qed.

Lemma outflowOf_record sig r :
  outflowOf cfg env sig = Ok (Some r) -> recordOk r /\ signature r = sig.
Proof.
  unfold outflowOf, exc_bind.
  destruct (getTransaction env sig) as [tx | e]; [| discriminate].
  destruct (decodeSystemTransfersOutWithSum tx (WATCH_ADDRESS cfg)) as [d | e];
    [| discriminate].
  destruct (if noOutflow (fst d) then _ else _) as [out | e]; [| discriminate].
  destruct (noOutflow out) eqn:Hn; [discriminate |].
  intros Heq. injection Heq as <-. unfold recordOk. cbn.
  unfold noOutflow in Hn. apply orb_false_iff in Hn as [_ Hle].
  apply Z.leb_gt in Hle. repeat split; try reflexivity. exact Hle.
Qed.

(** What the loop over [sigs] leaves: some of the records of [sigs], in
    order, were inserted; all of them when no fetch failed. *)
Lemma for_processSignature_inserts sigs w :
  let r := m_for sigs (processSignature cfg env) w in
  exists done,
    outflows (state (snd r)) = insertAll (WINDOW_OUTFLOWS cfg) done (outflows (state w))
    /\ anchorSig (state (snd r)) = anchorSig (state w)
    /\ Forall recordOk done
    /\ (length done <= length sigs)%nat
    /\ (forallb (fun sig => returns (outflowOf cfg env sig)) sigs = true ->
        fst r = Ok tt /\ done = recordsOf cfg env sigs).
Proof.
  revert w. induction sigs as [| sig rest IH]; intros w.
  - exists []. cbn.
    split; [reflexivity |]. split; [reflexivity |]. split; [constructor |].
    split; [lia |]. intros _. split; reflexivity.
  - cbn [m_for]. unfold m_bind. rewrite processSignature_outflowOf.
    destruct (outflowOf cfg env sig) as [[r |] | e] eqn:Ho.
    + destruct (IH {| state := set_outflows (pushOutflow (WINDOW_OUTFLOWS cfg) r
                                               (outflows (state w))) (state w);
                      trace := trace w ++ [EvGetTransaction sig] |})
        as (done & Hw & Ha & Hok & Hlen & Hall).
      exists (r :: done). cbn [state trace set_outflows outflows anchorSig] in *.
      split; [exact Hw |]. split; [exact Ha |].
      split; [constructor; [apply (outflowOf_record sig r Ho) | exact Hok] |].
      split; [cbn; lia |].
      intros Hret. cbn [forallb] in Hret. apply andb_true_iff in Hret as [_ Hret].
      destruct (Hall Hret) as [Hfst ->]. split; [exact Hfst |].
      unfold recordsOf. cbn [flat_map]. rewrite Ho. reflexivity.
    + destruct (IH (logged w [EvGetTransaction sig])) as (done & Hw & Ha & Hok & Hlen & Hall).
      exists done. cbn [logged state trace] in *.
      split; [exact Hw |]. split; [exact Ha |]. split; [exact Hok |].
      split; [cbn; lia |].
      intros Hret. cbn [forallb] in Hret. apply andb_true_iff in Hret as [_ Hret].
      destruct (Hall Hret) as [Hfst ->]. split; [exact Hfst |].
      unfold recordsOf. cbn [flat_map]. rewrite Ho. reflexivity.
    + exists []. cbn [snd fst logged state].
      split; [reflexivity |]. split; [reflexivity |]. split; [constructor |].
      split; [cbn; lia |].
      intros Hret. cbn [forallb] in Hret. rewrite Ho in Hret. discriminate Hret.
Qed.

End Insertion.

Section InsertionResults.
Context `{Platform}.
Variable cfg : Config.

Lemma Forall_firstn {A} (P : A -> Prop) n (l : list A) : Forall P l -> Forall P (firstn n l).
Proof.
  intros Hl. rewrite Forall_forall in *. intros x Hx. apply Hl.
  apply (in_firstn_in x n l Hx).
Qed.

Lemma pushOutflow_Forall {A} (P : A -> Prop) capacity r (w : list A) :
  P r -> Forall P w -> Forall P (pushOutflow capacity r w).
Proof.
  intros Hr Hw. unfold pushOutflow, slice0.
  destruct (capacity <? _); [| constructor; assumption].
  destruct (0 <=? capacity); apply Forall_firstn; constructor; assumption.
Qed.

Lemma insertAll_Forall {A} (P : A -> Prop) capacity rs (w : list A) :
  Forall P rs -> Forall P w -> Forall P (insertAll capacity rs w).
Proof.
  revert w. induction rs as [| r rs IH]; intros w Hrs Hw; [exact Hw |].
  inversion Hrs; subst. cbn [insertAll fold_left]. apply IH; [assumption |].
  apply pushOutflow_Forall; assumption.
Qed.

Lemma pushOutflow_grows_by_one {A} capacity r (w : list A) :
  (length (pushOutflow capacity r w) <= S (length w))%nat.
Proof.
  unfold pushOutflow, slice0.
  destruct (capacity <? _); [| cbn; lia].
  destruct (0 <=? capacity); rewrite length_firstn; cbn [length]; lia.
Qed.

Lemma insertAll_grows {A} capacity rs (w : list A) :
  (length (insertAll capacity rs w) <= length w + length rs)%nat.
Proof.
  revert w. induction rs as [| r rs IH]; intros w; [cbn; lia |].
  cbn [insertAll fold_left length]. fold (insertAll capacity rs (pushOutflow capacity r w)).
  pose proof (IH (pushOutflow capacity r w)).
  pose proof (pushOutflow_grows_by_one capacity r w). lia.
Qed.

Lemma evaluate_window_cases env w :
  outflows (state (snd (evaluate cfg env w))) = outflows (state w)
  \/ outflows (state (snd (evaluate cfg env w))) = [].
Proof.
  destruct (triggers cfg (state w)) eqn:Ht.
  - right. apply (evaluate_trigger_effect cfg env w Ht).
  - left. rewrite evaluate_cases, Ht. reflexivity.
Qed.

(** The window after the insertion phase of a cycle. *)
Lemma ingest_inserts env newSigs w :
  exists done,
    outflows (state (snd (ingest cfg env newSigs w)))
    = insertAll (WINDOW_OUTFLOWS cfg) done (outflows (state w))
    /\ Forall recordOk done
    /\ (length done <= length newSigs)%nat.
Proof.
  destruct newSigs as [| n rest].
  - exists []. cbn. repeat split; [constructor | lia].
  - rewrite ingest_cons_unfold.
    destruct (for_processSignature_inserts cfg env (rev (n :: rest))
                {| state := set_anchorSig (Some n) (state w); trace := trace w |})
      as (done & Hw & _ & Hok & Hlen & _).
    cbn zeta in Hw. rewrite length_rev in Hlen. exists done.
    destruct (m_for _ _ _) as [[[] | e] w1]; cbn [snd logged state] in *;
      (split; [exact Hw | split; [exact Hok | exact Hlen]]).
Qed.

(** X12: the loop keeps the window well formed: in every cycle, whatever the
    node answers and whichever call fails, every record of the window has a
    positive amount and carries the 4-decimal string of that amount. *)
Theorem window_records_stay_well_formed (env : Env) (w : World) :
  Forall recordOk (outflows (state w)) ->
  Forall recordOk (outflows (state (cycle cfg env w))).
Proof.
  intros Hw. rewrite cycle_unfold.
  destruct (poll_signatures env) as [sigs | e]; [| exact Hw].
  destruct (ingest_inserts env (newSignatures sigs (anchorSig (state w)))
              (logged w [EvGetSignatures (SIG_FETCH_LIMIT cfg)]))
    as (done & Hins & Hok & _).
  assert (H1 : Forall recordOk
                 (outflows (state (snd (ingest cfg env
                                          (newSignatures sigs (anchorSig (state w)))
                                          (logged w [EvGetSignatures (SIG_FETCH_LIMIT cfg)])))))).
  { rewrite Hins. apply insertAll_Forall; assumption. }
  destruct (ingest cfg env _ _) as [[[] | e] w1]; cbn [snd] in H1; [| exact H1].
  destruct (evaluate_window_cases env w1) as [-> | ->]; [exact H1 | constructor].
Qed.

(** X13: while the window fills, nothing is sent: a cycle that starts with
    fewer records than the capacity, the newly polled signatures counted in,
    sends no alert and leaves [lastAlertKey] as it is. *)
Theorem no_alert_while_filling (env : Env) (w : World) :
  Z.of_nat (length (outflows (state w)) + length (polled env (anchorSig (state w))))
  < WINDOW_OUTFLOWS cfg ->
  dispatches (trace (cycle cfg env w)) = dispatches (trace w)
  /\ lastAlertKey (state (cycle cfg env w)) = lastAlertKey (state w).
Proof.
  intros Hroom. rewrite cycle_unfold. unfold polled in Hroom.
  set (w0 := logged w [EvGetSignatures (SIG_FETCH_LIMIT cfg)]).
  assert (Hd0 : dispatches (trace w0) = dispatches (trace w)).
  { unfold w0, logged. cbn [trace]. rewrite dispatches_app. cbn. apply app_nil_r. }
  destruct (poll_signatures env) as [sigs | e]; [| split; [exact Hd0 | reflexivity]].
  destruct (ingest_effect cfg env (newSignatures sigs (anchorSig (state w))) w0) as [Hk Hd].
  destruct (ingest_inserts env (newSignatures sigs (anchorSig (state w))) w0)
    as (done & Hins & _ & Hlen).
  pose proof (insertAll_grows (WINDOW_OUTFLOWS cfg) done (outflows (state w0))) as Hgrow.
  rewrite <- Hins in Hgrow. change (state w0) with (state w) in *.
  destruct (ingest cfg env _ w0) as [[[] | e] w1]; cbn [snd] in *.
  - rewrite evaluate_cases. unfold triggers, thresholdReached.
    destruct (Z.leb_spec (WINDOW_OUTFLOWS cfg) (Z.of_nat (length (outflows (state w1)))));
      [lia |].
    cbn [andb snd]. split; [rewrite Hd; exact Hd0 | exact Hk].
  - split; [rewrite Hd; exact Hd0 | exact Hk].
Qed.




Lemma alertsOf_app a b : alertsOf (a ++ b) = alertsOf a ++ alertsOf b.
Proof.
  induction a as [| e a IH]; [reflexivity |].
  destruct e; cbn [app alertsOf]; rewrite IH; reflexivity.
Qed.

Lemma alertsOf_quiet evs :
  forallb (fun e => isTxRead e || isSave e) evs = true -> alertsOf evs = [].
Proof.
  induction evs as [| e evs IH]; [reflexivity |].
  cbn [forallb]. intros Hf. apply andb_true_iff in Hf as [He Hr].
  destruct e; try discriminate He; cbn [alertsOf]; auto.
Qed.

Lemma alertsOf_reads evs : forallb isTxRead evs = true -> alertsOf evs = [].
Proof.
  intros Hf. apply alertsOf_quiet. rewrite forallb_forall in *.
  intros e He. rewrite (Hf e He). reflexivity.
Qed.

Lemma evaluate_alerts env w :
  exists sent,
    alertsOf (trace (snd (evaluate cfg env w))) = alertsOf (trace w) ++ sent
    /\ Forall (alertWithinBounds cfg) sent
    /\ (length sent <= 1)%nat.
Proof.
  rewrite evaluate_cases. destruct (triggers cfg (state w)) eqn:Ht.
  - destruct (trigger_spec cfg env (makeAlertKey (outflows (state w)))
                (matchesOf cfg (outflows (state w)))
                (Z.of_nat (length (consideredOf cfg (outflows (state w)))))
                (Z.of_nat (length (matchesOf cfg (outflows (state w))))) w)
      as (c & reads & Hr & Hspec).
    cbn zeta in Hspec. rewrite Hspec. eexists [_]. split; [| split; [| cbn; lia]].
    + destruct (newest_signatures env) as [sigs | e]; cbn [snd trace];
        rewrite !alertsOf_app, (alertsOf_reads reads Hr); cbn [alertsOf app];
        rewrite ?app_nil_r; reflexivity.
    + constructor; [| constructor].
      unfold triggers, thresholdReached in Ht.
      apply andb_true_iff in Ht as [Ht _]. apply andb_true_iff in Ht as [Hfull Hreq].
      apply Z.leb_le in Hfull, Hreq.
      unfold alertWithinBounds.
      cbn [watch fiveDigitsCount inRangeCount windowSize].
      pose proof (filter_length_le (fun x => isFiveDigitsLamports_4dpCut (outLamports x))
                    (consideredOf cfg (outflows (state w)))) as H1.
      pose proof (filter_length_le (fun x => inSolRangeLamports cfg (outLamports x))
                    (outflows (state w))) as H2.
      fold (matchesOf cfg (outflows (state w))) in H1.
      fold (consideredOf cfg (outflows (state w))) in H2.
      repeat split; try lia; reflexivity.
  - exists []. cbn [snd]. rewrite app_nil_r. repeat split; [constructor | cbn; lia].
Qed.

(** X15: a cycle sends at most one alert, and an alert it sends carries the
    watched address and counts in this order: threshold <= five-digit
    matches <= records in range <= window size, the window being full. *)
Theorem alerts_are_within_bounds (env : Env) (w : World) :
  exists sent,
    alertsOf (trace (cycle cfg env w)) = alertsOf (trace w) ++ sent
    /\ Forall (alertWithinBounds cfg) sent
    /\ (length sent <= 1)%nat.
Proof.
  rewrite cycle_unfold.
  set (w0 := logged w [EvGetSignatures (SIG_FETCH_LIMIT cfg)]).
  assert (Ha0 : alertsOf (trace w0) = alertsOf (trace w)).
  { unfold w0, logged. cbn [trace]. rewrite alertsOf_app. cbn. apply app_nil_r. }
  assert (Hnone : exists sent, alertsOf (trace w0) = alertsOf (trace w) ++ sent
                               /\ Forall (alertWithinBounds cfg) sent /\ (length sent <= 1)%nat).
  { exists []. rewrite app_nil_r. repeat split; [exact Ha0 | constructor | cbn; lia]. }
  destruct (poll_signatures env) as [sigs | e]; [| exact Hnone].
  assert (Hing : alertsOf (trace (snd (ingest cfg env
                                         (newSignatures sigs (anchorSig (state w))) w0)))
                 = alertsOf (trace w)).
  { destruct (newSignatures sigs (anchorSig (state w))) as [| n rest]; [exact Ha0 |].
    destruct (ingest_cons cfg env n rest w0) as (_ & _ & _ & evs & -> & Hq).
    rewrite alertsOf_app, (alertsOf_quiet evs Hq), app_nil_r. exact Ha0. }
  destruct (ingest cfg env _ w0) as [[[] | e] w1]; cbn [snd] in Hing.
  - destruct (evaluate_alerts env w1) as (sent & Hs & Hb & Hl).
    exists sent. rewrite Hs, Hing. repeat split; assumption.
  - exists []. rewrite app_nil_r. repeat split; [exact Hing | constructor | cbn; lia].
Qed.

End InsertionResults.

Lemma window_records_stay_well_formed_witness :
  Forall recordOk (outflows (state (sampleWorld (Some "s3"%string) sampleWindow None)))
  /\ Forall recordOk
       (outflows (state (cycle (H := samplePlatform) sampleConfig
                           (sampleEnv ["s5"; "s4"; "s3"]%string ["s5"%string] [] true)
                           (sampleWorld (Some "s3"%string) sampleWindow None)))).
Proof.
  assert (Hw : Forall recordOk
                 (outflows (state (sampleWorld (Some "s3"%string) sampleWindow None)))).
  { repeat (constructor; [split; reflexivity |]). constructor. }
  split; [exact Hw |].
  exact (window_records_stay_well_formed (H := samplePlatform) sampleConfig
           (sampleEnv ["s5"; "s4"; "s3"]%string ["s5"%string] [] true)
           (sampleWorld (Some "s3"%string) sampleWindow None) Hw).
Defined.

Lemma no_alert_while_filling_witness :
  Z.of_nat (length (outflows (state (sampleWorld (Some "s3"%string)
                                       [sampleRecord "s3" 1234500000] None)))
            + length (polled (sampleEnv ["s4"; "s3"]%string [] [] true)
                        (anchorSig (state (sampleWorld (Some "s3"%string)
                                             [sampleRecord "s3" 1234500000] None)))))
  < WINDOW_OUTFLOWS sampleConfig
  /\ dispatches (trace (cycle (H := samplePlatform) sampleConfig
                          (sampleEnv ["s4"; "s3"]%string [] [] true)
                          (sampleWorld (Some "s3"%string) [sampleRecord "s3" 1234500000] None)))
     = dispatches (trace (sampleWorld (Some "s3"%string) [sampleRecord "s3" 1234500000] None)).
Proof.
  assert (Hroom :
    Z.of_nat (length (outflows (state (sampleWorld (Some "s3"%string)
                                         [sampleRecord "s3" 1234500000] None)))
              + length (polled (sampleEnv ["s4"; "s3"]%string [] [] true)
                          (anchorSig (state (sampleWorld (Some "s3"%string)
                                               [sampleRecord "s3" 1234500000] None)))))
    < WINDOW_OUTFLOWS sampleConfig) by reflexivity.
  split; [exact Hroom |].
  exact (proj1 (no_alert_while_filling (H := samplePlatform) sampleConfig
                  (sampleEnv ["s4"; "s3"]%string [] [] true)
                  (sampleWorld (Some "s3"%string) [sampleRecord "s3" 1234500000] None)
                  Hroom)).
Defined.


(** ** The alert key and the saved state *)

Section AlertKey.

Lemma lacks_append_char c a b : lacks c (a ++ String c b) = false.
Proof.
  induction a as [| d a IH]; cbn [append lacks].
  - rewrite Ascii.eqb_refl. reflexivity.
  - rewrite IH. apply andb_false_r.
Qed.

Lemma concat_plain_nonempty x xs :
  plainSig x = true -> String.concat "|" (x :: xs) <> EmptyString.
Proof.
  unfold plainSig. intros Hx. apply andb_true_iff in Hx as [Hne _].
  apply negb_true_iff, String.eqb_neq in Hne.
  destruct xs as [| y ys]; cbn [String.concat]; [exact Hne |].
  destruct x; [contradiction | discriminate].
Qed.

Lemma concat_plain_injective (l1 l2 : list string) :
  forallb plainSig l1 = true ->
  forallb plainSig l2 = true ->
  String.concat "|" l1 = String.concat "|" l2 ->
  l1 = l2.
Proof.
  revert l2. induction l1 as [| x xs IH]; intros l2 H1 H2 Heq.
  - destruct l2 as [| y ys]; [reflexivity |].
    cbn [forallb] in H2. apply andb_true_iff in H2 as [Hy _].
    exfalso. apply (concat_plain_nonempty y ys Hy). symmetry. exact Heq.
  - destruct l2 as [| y ys].
    + cbn [forallb] in H1. apply andb_true_iff in H1 as [Hx _].
      exfalso. apply (concat_plain_nonempty x xs Hx). exact Heq.
    + cbn [forallb] in H1, H2.
      apply andb_true_iff in H1 as [Hx Hxs]. apply andb_true_iff in H2 as [Hy Hys].
      assert (Lx : lacks "|"%char x = true) by (apply andb_true_iff in Hx; tauto).
      assert (Ly : lacks "|"%char y = true) by (apply andb_true_iff in Hy; tauto).
      destruct xs as [| x2 xs], ys as [| y2 ys].
      * cbn in Heq. now subst.
      * change (String.concat "|" [x]) with x in Heq.
        change (String.concat "|" (y :: y2 :: ys))
          with (y ++ String "|"%char (String.concat "|" (y2 :: ys)))%string in Heq.
        exfalso. rewrite Heq, lacks_append_char in Lx. discriminate Lx.
      * change (String.concat "|" [y]) with y in Heq.
        change (String.concat "|" (x :: x2 :: xs))
          with (x ++ String "|"%char (String.concat "|" (x2 :: xs)))%string in Heq.
        exfalso. rewrite <- Heq, lacks_append_char in Ly. discriminate Ly.
      * change (String.concat "|" (x :: x2 :: xs))
          with (x ++ String "|"%char (String.concat "|" (x2 :: xs)))%string in Heq.
        change (String.concat "|" (y :: y2 :: ys))
          with (y ++ String "|"%char (String.concat "|" (y2 :: ys)))%string in Heq.
        destruct (append_split_at "|"%char _ _ _ _ Lx Ly Heq) as [-> Hrest].
        f_equal. apply IH; assumption.
Qed.

(** X16: the alert key identifies the sequence of signatures of the window:
    two windows of signatures as the node prints them (not empty, without
    ["|"]) have the same key only when they hold the same signatures in the
    same order; amounts and timestamps do not enter the key. *)
Theorem alert_key_identifies_signatures (w1 w2 : list OutflowRecord) :
  forallb (fun r => plainSig (signature r)) w1 = true ->
  forallb (fun r => plainSig (signature r)) w2 = true ->
  (makeAlertKey w1 = makeAlertKey w2 <-> map signature w1 = map signature w2).
Proof.
  intros H1 H2. unfold makeAlertKey. split; [| intros ->; reflexivity].
  apply concat_plain_injective.
  - rewrite forallb_forall in *. intros sig Hs. apply in_map_iff in Hs as (r & <- & Hr).
    apply (H1 r Hr).
  - rewrite forallb_forall in *. intros sig Hs. apply in_map_iff in Hs as (r & <- & Hr).
    apply (H2 r Hr).
Qed.

End AlertKey.

Lemma alert_key_identifies_signatures_witness :
  forallb (fun r => plainSig (signature r)) sampleWindow = true
  /\ (makeAlertKey sampleWindow = makeAlertKey (map (fun r => sampleRecord (signature r) 1) sampleWindow)
      <-> map signature sampleWindow
          = map signature (map (fun r => sampleRecord (signature r) 1) sampleWindow)).
Proof.
  split; [reflexivity |].
  exact (alert_key_identifies_signatures sampleWindow
           (map (fun r => sampleRecord (signature r) 1) sampleWindow) eq_refl eq_refl).
Defined.

Section SavedState.
Context `{Platform}.
Variable cfg : Config.

Lemma lastSavedFrom_app acc a b :
  lastSavedFrom acc (a ++ b) = lastSavedFrom (lastSavedFrom acc a) b.
Proof. apply fold_left_app. Qed.

Lemma lastSavedFrom_reads acc reads :
  forallb isTxRead reads = true -> lastSavedFrom acc reads = acc.
Proof.
  revert acc. induction reads as [| e reads IH]; intros acc Hf; [reflexivity |].
  cbn [forallb] in Hf. apply andb_true_iff in Hf as [He Hr].
  destruct e; try discriminate He; cbn; apply IH, Hr.
Qed.

(** X17: when the re-anchoring query fails after an alert was sent, the
    evaluation ends in that exception with the window and the alert key
    cleared in memory and the cursor where it was, and the state last saved
    is the full window with its own key as [lastAlertKey]: a state that no
    evaluation alerts on again. *)
Theorem failed_reanchor_leaves_deduplicated_state (env : Env) (w : World) (e : string) :
  triggers cfg (state w) = true ->
  newest_signatures env = Throw e ->
  fst (evaluate cfg env w) = Throw e
  /\ state (snd (evaluate cfg env w))
     = {| anchorSig := anchorSig (state w); outflows := []; lastAlertKey := None |}
  /\ lastSaved (trace (snd (evaluate cfg env w)))
     = Some (set_lastAlertKey (Some (makeAlertKey (outflows (state w)))) (state w))
  /\ (forall env' tr,
        evaluate cfg env'
          {| state := set_lastAlertKey (Some (makeAlertKey (outflows (state w)))) (state w);
             trace := tr |}
        = (Ok tt,
           {| state := set_lastAlertKey (Some (makeAlertKey (outflows (state w)))) (state w);
              trace := tr |})).
Proof.
  intros Ht Hn. rewrite evaluate_cases, Ht.
  destruct (trigger_spec cfg env (makeAlertKey (outflows (state w)))
              (matchesOf cfg (outflows (state w)))
              (Z.of_nat (length (consideredOf cfg (outflows (state w)))))
              (Z.of_nat (length (matchesOf cfg (outflows (state w))))) w)
    as (c & reads & Hr & Hspec).
  cbn zeta in Hspec. rewrite Hn in Hspec. rewrite Hspec. cbn [fst snd state trace].
  split; [reflexivity |]. split; [reflexivity |]. split.
  - unfold lastSaved. rewrite !lastSavedFrom_app, (lastSavedFrom_reads _ reads Hr).
    reflexivity.
  - intros env' tr. apply evaluate_same_key. reflexivity.
Qed.

End SavedState.

Lemma failed_reanchor_leaves_deduplicated_state_witness :
  triggers sampleConfig (state (sampleWorld (Some "s3"%string) sampleWindow None)) = true
  /\ fst (evaluate (H := samplePlatform) sampleConfig
            {| poll_signatures := Ok [];
               newest_signatures := Throw "fetch failed";
               getTransaction := fun _ => Ok JNull;
               getParsedTransaction := fun _ => Ok JNull;
               webhook_ok := true;
               now := 0 |}
            (sampleWorld (Some "s3"%string) sampleWindow None))
     = Throw "fetch failed".
Proof.
  split; [reflexivity |].
  apply (failed_reanchor_leaves_deduplicated_state (H := samplePlatform) sampleConfig
           {| poll_signatures := Ok [];
              newest_signatures := Throw "fetch failed";
              getTransaction := fun _ => Ok JNull;
              getParsedTransaction := fun _ => Ok JNull;
              webhook_ok := true;
              now := 0 |}
           (sampleWorld (Some "s3"%string) sampleWindow None) "fetch failed" eq_refl eq_refl).
Defined.

(** ** The destination preview *)

Section Preview.
Context `{Platform}.
Variable cfg : Config.
Variable env : Env.

Lemma sameValueZero_string s v : sameValueZero (JStr s) v = true -> v = JStr s.
Proof.
  destruct v; cbn; try discriminate. intros Heq. apply String.eqb_eq in Heq. now subst.
Qed.

Lemma existsb_filter_nil {A} (f : A -> bool) l : existsb f l = false -> filter f l = [].
Proof.
  induction l as [| x l IH]; [reflexivity |].
  cbn. destruct (f x); [discriminate | exact IH].
Qed.

Lemma setAdd_keeps v dests x : In x dests -> In x (setAdd v dests).
Proof.
  unfold setAdd. destruct (existsb _ _); [auto | intros Hx; apply in_or_app; now left].
Qed.

Lemma setAdd_from v dests x : In x (setAdd v dests) -> In x dests \/ x = v.
Proof.
  unfold setAdd. destruct (existsb _ _); [auto |].
  intros Hx. apply in_app_or in Hx as [Hx | [Hx | []]]; auto.
Qed.

Lemma setAdd_has_string s dests : In (JStr s) (setAdd (JStr s) dests).
Proof.
  unfold setAdd. destruct (existsb _ _) eqn:He.
  - apply existsb_exists in He as (y & Hy & Hs).
    apply sameValueZero_string in Hs. now subst.
  - apply in_or_app. right. now left.
Qed.

Lemma setAdd_once s v dests :
  (length (filter (sameValueZero (JStr s)) dests) <= 1)%nat ->
  (length (filter (sameValueZero (JStr s)) (setAdd v dests)) <= 1)%nat.
Proof.
  intros Hd. unfold setAdd. destruct (existsb (sameValueZero v) dests) eqn:He; [exact Hd |].
  rewrite filter_app, length_app. cbn [filter].
  destruct (sameValueZero (JStr s) v) eqn:Hs; [| cbn; lia].
  apply sameValueZero_string in Hs. subst v.
  rewrite (existsb_filter_nil _ _ He). cbn. lia.
Qed.

Lemma collectLines_previewInv transfers acc :
  previewInv acc -> previewInv (collectLines cfg transfers acc).
Proof.
  revert acc. induction transfers as [| t rest IH]; intros acc Hacc; [exact Hacc |].
  cbn [collectLines].
  destruct (negb (truthy (to t)) || (lamports t =? 0)); [apply IH, Hacc |].
  destruct (negb (inSolRangeLamports cfg (lamports t))); [apply IH, Hacc |].
  destruct (negb (isFiveDigitsLamports_4dpCut (lamports t))); [apply IH, Hacc |].
  apply IH. destruct Hacc as (I1 & I2 & I3). unfold previewInv. cbn [fst snd].
  split; [| split].
  - intros v Hv. rewrite map_app. apply in_or_app.
    destruct (setAdd_from _ _ _ Hv) as [Hold | ->]; [left; apply I1, Hold |].
    right. now left.
  - intros s. apply setAdd_once, I2.
  - intros l Hl Hstr. apply in_app_or in Hl as [Hl | [<- | []]].
    + apply setAdd_keeps, I3; assumption.
    + cbn [destWallet] in *. destruct (to t); try discriminate Hstr.
      apply setAdd_has_string.
Qed.

Lemma collectMatched_previewInv matches acc w c w' :
  previewInv acc ->
  collectMatched cfg env matches acc w = (Ok c, w') ->
  previewInv c.
Proof.
  revert acc w. induction matches as [| m rest IH]; intros acc w Hacc Heq.
  - cbn in Heq. injection Heq as <- _. exact Hacc.
  - cbn [collectMatched] in Heq. unfold m_bind at 1 in Heq.
    destruct (matchedTransfers_spec cfg env (signature m) w) as (ts & evs & Hm & _).
    rewrite Hm in Heq.
    apply (IH _ _ (collectLines_previewInv ts acc Hacc) Heq).
Qed.

Lemma filter_firstn_length {A} (f : A -> bool) n (l : list A) :
  (length (filter f (firstn n l)) <= length (filter f l))%nat.
Proof.
  revert n. induction l as [| x l IH]; intros n; [rewrite firstn_nil; cbn; lia |].
  destruct n as [| n]; [cbn; lia |].
  cbn [firstn filter]. specialize (IH n). destruct (f x); cbn [length]; lia.
Qed.

Lemma slice0_incl {A} n (l : list A) x : In x (slice0 n l) -> In x l.
Proof.
  unfold slice0. destruct (0 <=? n); apply in_firstn_in.
Qed.

(** X18: the destination preview of an alert holds at most
    [PREVIEW_DEST_LIMIT] wallets (for a limit that is not negative), each
    one the destination of a matched line, and no address string twice;
    before the cut to the limit, every address string of a matched line is
    in it. *)
Theorem preview_lists_each_destination_once (matches : list OutflowRecord) (w w' : World)
    (c : list MatchedLine * list JsVal) :
  collectMatched cfg env matches ([], []) w = (Ok c, w') ->
  (0 <= PREVIEW_DEST_LIMIT cfg ->
   Z.of_nat (length (slice0 (PREVIEW_DEST_LIMIT cfg) (snd c))) <= PREVIEW_DEST_LIMIT cfg)
  /\ (forall v, In v (slice0 (PREVIEW_DEST_LIMIT cfg) (snd c)) ->
                In v (map destWallet (fst c)))
  /\ (forall s, (length (filter (sameValueZero (JStr s))
                           (slice0 (PREVIEW_DEST_LIMIT cfg) (snd c))) <= 1)%nat)
  /\ (forall l, In l (fst c) -> isStr (destWallet l) = true -> In (destWallet l) (snd c)).
Proof.
  intros Heq.
  assert (Hinv : previewInv c).
  { apply (collectMatched_previewInv matches ([], []) w c w'); [| exact Heq].
    unfold previewInv. cbn. repeat split; try contradiction. intros _. lia. }
  destruct Hinv as (I1 & I2 & I3).
  split; [| split; [| split]].
  - intros Hlim. unfold slice0. destruct (Z.leb_spec 0 (PREVIEW_DEST_LIMIT cfg)); [| lia].
    rewrite length_firstn. lia.
  - intros v Hv. apply I1, (slice0_incl _ _ _ Hv).
  - intros s. unfold slice0.
    destruct (0 <=? PREVIEW_DEST_LIMIT cfg);
      (etransitivity; [apply filter_firstn_length | apply I2]).
  - exact I3.
Qed.

End Preview.

Lemma preview_lists_each_destination_once_witness :
  exists c w',
    collectMatched (H := samplePlatform) sampleConfig
      (sampleEnv [] []
         [parsedTransferIx "DestA" 1234500000; parsedTransferIx "DestA" 2345600000;
          parsedTransferIx "DestB" 1234500000]
         true)
      sampleWindow ([], []) (sampleWorld None [] None) = (Ok c, w')
    /\ snd c = [JStr "DestA"; JStr "DestB"]
    /\ length (fst c) = 9%nat
    /\ forall s, (length (filter (sameValueZero (JStr s))
                            (slice0 (PREVIEW_DEST_LIMIT sampleConfig) (snd c))) <= 1)%nat.
Proof.
  eexists. eexists. split; [vm_compute; reflexivity |].
  split; [reflexivity |]. split; [reflexivity |].
  exact (proj1 (proj2 (proj2
    (preview_lists_each_destination_once (H := samplePlatform) sampleConfig
       (sampleEnv [] []
          [parsedTransferIx "DestA" 1234500000; parsedTransferIx "DestA" 2345600000;
           parsedTransferIx "DestB" 1234500000]
          true)
       sampleWindow (sampleWorld None [] None) _ _ eq_refl)))).
Defined.


(** ** The tallies of the per-transfer evaluation *)










(** ** The extractors of the variants *)

Section VariantExtraction.
Context `{Platform}.












(** X22: [isOutflowTx] never raises, and it answers [true] for a signature
    exactly when the evaluation of the per-transfer variant, asking the node
    the same questions and getting the same answers, finds a transfer for
    it; neither touches the state, and both only read transaction
    details. *)
Theorem outflow_test_iff_transfers_found (env : Env) (sig watchBase58 : string) (w : World) :
  exists transfers w',
    TransferList.windowTransfers env sig watchBase58 w = (Ok transfers, w')
    /\ TransferList.isOutflowTx env sig watchBase58 w
       = (Ok (TransferList.nonEmpty transfers), w')
    /\ state w' = state w
    /\ extendsWith isTxRead w w'.
Proof.
  unfold TransferList.windowTransfers, TransferList.isOutflowTx, m_bind, m_emit, m_ret.
  destruct (getParsedTransaction env sig) as [ptx | e]; cbn [exc_bind exc_catch];
    [destruct (truthy ptx);
     [destruct (TransferList.extractTransfersFromParsed ptx watchBase58) as [[| t ts] | e];
      cbn [exc_bind exc_catch TransferList.nonEmpty length Nat.ltb Nat.leb] |] |];
    try (destruct (getTransaction env sig) as [tx | e'']; cbn [exc_bind exc_catch];
         [destruct (TransferList.decodeSystemTransfersOutCompiled tx watchBase58)
            as [ts' | e3]; cbn [exc_bind exc_catch] |]);
    eexists; eexists; (split; [reflexivity |]); (split; [reflexivity |]);
    (split; [reflexivity |]); eexists;
    (split; [cbn [trace]; first [reflexivity | symmetry; apply app_assoc] |]); reflexivity.
Qed.

End VariantExtraction.

(** ** The received amount *)

Section ReceiptFacts.
Context `{Platform}.

Lemma sameValueZero_eq a b : sameValueZero a b = true -> a = b.
Proof.
  destruct a, b; cbn; try discriminate; intros Heq; try reflexivity.
  - apply Bool.eqb_prop in Heq. now subst.
  - apply Z.eqb_eq in Heq. now subst.
  - apply String.eqb_eq in Heq. now subst.
Qed.

Lemma sameValueZero_refl_of a b : sameValueZero a b = true -> sameValueZero b b = true.
Proof.
  intros Hab. pose proof (sameValueZero_eq _ _ Hab) as ->. exact Hab.
Qed.

Lemma indexOfFrom_spec v keys i idx :
  indexOfFrom v keys i = Some idx ->
  (i <= idx)%nat /\ (idx - i < length keys)%nat
  /\ sameValueZero (nth (idx - i) keys JUndefined) v = true
  /\ forall j, (j < idx - i)%nat -> sameValueZero (nth j keys JUndefined) v = false.
Proof.
  revert i. induction keys as [| k rest IH]; intros i Hidx; [discriminate Hidx |].
  cbn [indexOfFrom] in Hidx. destruct (sameValueZero k v) eqn:Hk.
  - injection Hidx as <-. rewrite Nat.sub_diag. cbn [length nth].
    split; [lia |]. split; [lia |]. split; [exact Hk |]. intros j Hj. lia.
  - destruct (IH _ Hidx) as (Hle & Hlt & Hnth & Hfirst).
    replace (idx - i)%nat with (S (idx - S i)) by lia. cbn [length nth].
    split; [lia |]. split; [lia |]. split; [exact Hnth |].
    intros [| j] Hj; [exact Hk | apply Hfirst; lia].
Qed.

(** X23: [getDestReceivedLamportsFromTx] never raises, and a number it
    returns is positive: it is the post-balance minus the pre-balance at the
    first position of the destination among the account keys of the record,
    so the test [!recvLamports] of the match loop only drops [null]. *)
Theorem received_amount_is_a_balance_increase (tx : JsVal) (destBase58 : JsVal) (d : Z)
    (cfg : Config) (t : Transfer) :
  getDestReceivedLamportsFromTx tx destBase58 = Some d ->
  0 < d
  /\ (exists keys idx pre post,
        getAllAccountKeysFromTx tx = Ok keys
        /\ (idx < length keys)%nat
        /\ nth idx keys JUndefined = destBase58
        /\ (forall j, (j < idx)%nat -> nth j keys JUndefined <> destBase58)
        /\ toNumber (indexVal (optProp (optProp tx "meta") "preBalances") idx) = Fin pre
        /\ toNumber (indexVal (optProp (optProp tx "meta") "postBalances") idx) = Fin post
        /\ d = post - pre)
  /\ (truthy (to t) = true -> ExactDelta.turn cfg t (Some d) <> ExactDelta.SkipNoReceipt).
Proof.
  unfold getDestReceivedLamportsFromTx. intros Hd.
  destruct (negb (truthy _) || negb (truthy _)); [discriminate Hd |].
  destruct (getAllAccountKeysFromTx tx) as [keys | e]; cbn [exc_bind exc_catch] in Hd;
    [| discriminate Hd].
  destruct (length keys =? 0)%nat; [discriminate Hd |].
  destruct (indexOfFrom destBase58 keys 0) as [idx |] eqn:Hidx; [| discriminate Hd].
  destruct (toNumber (indexVal (optProp (optProp tx "meta") "preBalances") idx))
    as [pre | | |] eqn:Hpre; cbn [isFinite negb orb exc_catch] in Hd; try discriminate Hd.
  destruct (toNumber (indexVal (optProp (optProp tx "meta") "postBalances") idx))
    as [post | | |] eqn:Hpost; cbn [isFinite negb orb exc_catch] in Hd; try discriminate Hd.
  cbn zeta in Hd. destruct (Z.leb_spec (post - pre) 0) as [Hle | Hgt];
    cbn [exc_catch] in Hd; [discriminate Hd |].
  injection Hd as <-.
  destruct (indexOfFrom_spec _ _ _ _ Hidx) as (_ & Hlt & Hnth & Hfirst).
  rewrite Nat.sub_0_r in Hlt, Hnth, Hfirst.
  split; [exact Hgt |]. split.
  - exists keys, idx, pre, post.
    split; [reflexivity |]. split; [exact Hlt |].
    split; [apply sameValueZero_eq, Hnth |].
    split; [| split; [exact Hpre | split; [exact Hpost | reflexivity]]].
    intros j Hj Heq. specialize (Hfirst j Hj). rewrite Heq in Hfirst.
    rewrite (sameValueZero_refl_of _ _ Hnth) in Hfirst. discriminate Hfirst.
  - intros Hto. unfold ExactDelta.turn. rewrite Hto. cbn [negb].
    destruct (Z.eqb_spec (post - pre) 0) as [H0 | _]; [lia |].
    destruct (negb (inSolRangeLamports cfg (post - pre))); [discriminate |].
    destruct (negb (ExactDelta.isFiveDigitsByDestDeltaExact (Fin (post - pre))));
      [discriminate |].
    destruct (ExactDelta.lamportsToSol4ExactString (Fin (post - pre))) as [s0 |];
      cbn [ExactDelta.strMissing]; [| discriminate].
    destruct (s0 =? "")%string; discriminate.
Qed.

End ReceiptFacts.

Lemma received_amount_is_a_balance_increase_witness :
  getDestReceivedLamportsFromTx (H := samplePlatform)
    (receiptTx "DestA" 20000000 1254500000) (JStr "DestA") = Some 1234500000
  /\ 0 < 1234500000.
Proof.
  split; [reflexivity |].
  exact (proj1 (received_amount_is_a_balance_increase (H := samplePlatform)
                  (receiptTx "DestA" 20000000 1254500000) (JStr "DestA") 1234500000
                  sampleConfig {| to := JStr "DestA"; lamports := 1234500000 |} eq_refl)).
Defined.

(** ** The post-balance variant: digits of the printed amount *)

Lemma usize_parsed s d :
  NilEmpty.uint_of_string s = Some d ->
  DecimalPos.Unsigned.usize d = N.of_nat (String.length s).
Proof.
  revert d. induction s as [| c s IH]; intros d Hd.
  - cbn in Hd. injection Hd as <-. reflexivity.
  - cbn [NilEmpty.uint_of_string] in Hd.
    destruct (NilEmpty.uint_of_string s) as [d' |]; [| discriminate Hd].
    apply uint_of_char_spec in Hd. cbn [String.length].
    replace (N.of_nat (S (String.length s))) with (N.succ (N.of_nat (String.length s))) by lia.
    rewrite <- (IH d' eq_refl).
    intuition subst; reflexivity.
Qed.

Lemma of_uint_digit (d : Decimal.uint) :
  N.of_uint (Decimal.D0 d) = (0 * 10 ^ DecimalPos.Unsigned.usize d + N.of_uint d)%N
  /\ N.of_uint (Decimal.D1 d) = (1 * 10 ^ DecimalPos.Unsigned.usize d + N.of_uint d)%N
  /\ N.of_uint (Decimal.D2 d) = (2 * 10 ^ DecimalPos.Unsigned.usize d + N.of_uint d)%N
  /\ N.of_uint (Decimal.D3 d) = (3 * 10 ^ DecimalPos.Unsigned.usize d + N.of_uint d)%N
  /\ N.of_uint (Decimal.D4 d) = (4 * 10 ^ DecimalPos.Unsigned.usize d + N.of_uint d)%N
  /\ N.of_uint (Decimal.D5 d) = (5 * 10 ^ DecimalPos.Unsigned.usize d + N.of_uint d)%N
  /\ N.of_uint (Decimal.D6 d) = (6 * 10 ^ DecimalPos.Unsigned.usize d + N.of_uint d)%N
  /\ N.of_uint (Decimal.D7 d) = (7 * 10 ^ DecimalPos.Unsigned.usize d + N.of_uint d)%N
  /\ N.of_uint (Decimal.D8 d) = (8 * 10 ^ DecimalPos.Unsigned.usize d + N.of_uint d)%N
  /\ N.of_uint (Decimal.D9 d) = (9 * 10 ^ DecimalPos.Unsigned.usize d + N.of_uint d)%N.
Proof.
  unfold N.of_uint. cbn [Pos.of_uint].
  rewrite !DecimalPos.Unsigned.of_uint_acc_rev, DecimalPos.Unsigned.of_uint_alt.
  repeat split; lia.
Qed.

(** The leading digit of a string of digits weighs a power of ten. *)
Lemma digitsValue_cons c s :
  isDigits (String c s) = true ->
  0 <= digitOf c <= 9 /\ (digitOf c = 0 <-> c = "0"%char)
  /\ isDigits s = true
  /\ digitsValue (String c s)
     = digitOf c * 10 ^ Z.of_nat (String.length s) + digitsValue s.
Proof.
  unfold isDigits, digitsValue at 1. cbn [NilEmpty.uint_of_string].
  destruct (NilEmpty.uint_of_string s) as [d |] eqn:Hs; [| discriminate].
  destruct (uint_of_char c (Some d)) as [d' |] eqn:Hc; [| discriminate]. intros _.
  apply uint_of_char_spec in Hc.
  pose proof (usize_parsed s d Hs) as Hu.
  pose proof (of_uint_digit d) as (E0 & E1 & E2 & E3 & E4 & E5 & E6 & E7 & E8 & E9).
  assert (Hpow : Z.of_N (10 ^ DecimalPos.Unsigned.usize d) = 10 ^ Z.of_nat (String.length s)).
  { rewrite Hu, N2Z.inj_pow, nat_N_Z. reflexivity. }
  assert (Hv : digitsValue s = Z.of_N (N.of_uint d)) by (unfold digitsValue; now rewrite Hs).
  rewrite Hv.
  destruct Hc as [[-> ->] | [[-> ->] | [[-> ->] | [[-> ->] | [[-> ->] | [[-> ->] | [[-> ->]
                 | [[-> ->] | [[-> ->] | [-> ->]]]]]]]]]];
    rewrite ?E0, ?E1, ?E2, ?E3, ?E4, ?E5, ?E6, ?E7, ?E8, ?E9, N2Z.inj_add, N2Z.inj_mul, Hpow;
    change (digitOf "0") with 0; change (digitOf "1") with 1; change (digitOf "2") with 2;
    change (digitOf "3") with 3; change (digitOf "4") with 4; change (digitOf "5") with 5;
    change (digitOf "6") with 6; change (digitOf "7") with 7; change (digitOf "8") with 8;
    change (digitOf "9") with 9;
    (split; [lia |]); (split; [split; [try lia; reflexivity | try reflexivity; discriminate] |]);
    (split; [reflexivity |]); reflexivity.
Qed.

Lemma digitsValue_bounds s :
  isDigits s = true -> 0 <= digitsValue s < 10 ^ Z.of_nat (String.length s).
Proof.
  induction s as [| c s IH]; intros Hs.
  - cbn. lia.
  - destruct (digitsValue_cons c s Hs) as (Hk & _ & Hs' & ->).
    specialize (IH Hs'). cbn [String.length]. rewrite Nat2Z.inj_succ, Z.pow_succ_r by lia.
    nia.
Qed.

Lemma trimTrailingZeros_length s :
  (String.length (PostBalance.trimTrailingZeros s) <= String.length s)%nat.
Proof.
  induction s as [| c s IH]; [cbn; lia |].
  cbn [PostBalance.trimTrailingZeros]. destruct (PostBalance.trimTrailingZeros s) as [| c' r].
  - destruct (c =? "0")%char; cbn; lia.
  - cbn [String.length] in *. lia.
Qed.

Lemma isDigits_cons_inv c s : isDigits (String c s) = true -> isDigits s = true.
Proof.
  intros Hs. destruct (digitsValue_cons c s Hs) as (_ & _ & Hs' & _). exact Hs'.
Qed.

Lemma isDigits_cons_tail c s r :
  isDigits (String c s) = true -> isDigits r = true -> isDigits (String c r) = true.
Proof.
  unfold isDigits. cbn [NilEmpty.uint_of_string].
  destruct (NilEmpty.uint_of_string s) as [d |]; [| discriminate].
  destruct (NilEmpty.uint_of_string r) as [e |]; [| discriminate].
  destruct (uint_of_char c (Some d)) as [d' |] eqn:Hc; [| discriminate]. intros _ _.
  apply uint_of_char_spec in Hc.
  intuition subst; reflexivity.
Qed.

Lemma isDigits_trim s : isDigits s = true -> isDigits (PostBalance.trimTrailingZeros s) = true.
Proof.
  induction s as [| c s IH]; intros Hs; [reflexivity |].
  pose proof (IH (isDigits_cons_inv c s Hs)) as Hr.
  cbn [PostBalance.trimTrailingZeros]. destruct (PostBalance.trimTrailingZeros s) as [| c' r].
  - destruct (c =? "0")%char; [reflexivity |].
    apply (isDigits_cons_tail c s ""); [exact Hs | reflexivity].
  - apply (isDigits_cons_tail c s); assumption.
Qed.

(** A string of digits is its trimmed part followed by zeros only. *)
Lemma digitsValue_trim s :
  isDigits s = true ->
  digitsValue s
  = digitsValue (PostBalance.trimTrailingZeros s)
    * 10 ^ (Z.of_nat (String.length s) - Z.of_nat (String.length (PostBalance.trimTrailingZeros s))).
Proof.
  induction s as [| c s IH]; intros Hs; [reflexivity |].
  pose proof (isDigits_cons_inv c s Hs) as Hs'.
  pose proof (isDigits_trim s Hs') as Hr.
  pose proof (trimTrailingZeros_length s) as Hlen.
  specialize (IH Hs').
  destruct (digitsValue_cons c s Hs) as (Hk & Hk0 & _ & Hv).
  rewrite Hv. cbn [PostBalance.trimTrailingZeros].
  destruct (PostBalance.trimTrailingZeros s) as [| c' r] eqn:Ht.
  - change (digitsValue "") with 0 in IH. rewrite Z.mul_0_l in IH. rewrite IH.
    destruct (Ascii.eqb_spec c "0"%char) as [Hc | Hc].
    + apply Hk0 in Hc. rewrite Hc. change (digitsValue "") with 0. lia.
    + fold (digitOf c). cbn [String.length].
      replace (Z.of_nat (S (String.length s)) - Z.of_nat 1) with (Z.of_nat (String.length s))
        by lia.
      lia.
  - assert (Hd : isDigits (String c (String c' r)) = true)
      by (apply (isDigits_cons_tail c s); assumption).
    destruct (digitsValue_cons c (String c' r) Hd) as (_ & _ & _ & Hv').
    rewrite Hv', IH.
    change (String.length (String c (String c' r))) with (S (String.length (String c' r))).
    change (String.length (String c s)) with (S (String.length s)).
    remember (String.length s) as n eqn:En. remember (String.length (String c' r)) as m eqn:Em.
    replace (Z.of_nat (S n) - Z.of_nat (S m)) with (Z.of_nat n - Z.of_nat m) by lia.
    rewrite Z.mul_add_distr_r, <- Z.mul_assoc, <- Z.pow_add_r by lia.
    replace (Z.of_nat m + (Z.of_nat n - Z.of_nat m)) with (Z.of_nat n) by lia.
    reflexivity.
Qed.

Lemma isDigits_string_of_uint (d : Decimal.uint) :
  isDigits (NilEmpty.string_of_uint d) = true.
Proof.
  unfold isDigits. now rewrite NilEmpty.usu.
Qed.

Lemma isDigits_dec (z : Z) : isDigits (dec z) = true.
Proof.
  unfold dec, NilZero.string_of_uint.
  destruct (N.to_uint (Z.to_N z)) eqn:E; try (rewrite <- E; apply isDigits_string_of_uint).
  reflexivity.
Qed.

Lemma digitsValue_dec (z : Z) : 0 <= z -> digitsValue (dec z) = z.
Proof.
  intros Hz. unfold digitsValue, dec, NilZero.string_of_uint.
  pose proof (to_uint_nonnil (Z.to_N z)) as Hnn.
  destruct (N.to_uint (Z.to_N z)) eqn:E; try contradiction;
    rewrite <- E, NilEmpty.usu, DecimalN.Unsigned.of_to; apply Z2N.id; exact Hz.
Qed.

Lemma dec_length_pos (z : Z) : (1 <= String.length (dec z))%nat.
Proof.
  unfold dec, NilZero.string_of_uint.
  destruct (N.to_uint (Z.to_N z)); cbn; lia.
Qed.

Lemma isDigits_zeros_app k s : isDigits s = true -> isDigits (zeros k ++ s) = true.
Proof.
  intros Hs. induction k as [| k IH]; [exact Hs |].
  cbn [zeros append]. apply (isDigits_cons_tail "0" "" _); [reflexivity | exact IH].
Qed.

Lemma digitsValue_zeros_app k s : isDigits s = true -> digitsValue (zeros k ++ s) = digitsValue s.
Proof.
  intros Hs. induction k as [| k IH]; [reflexivity |].
  cbn [zeros append].
  assert (Hd : isDigits (String "0" (zeros k ++ s)) = true).
  { apply (isDigits_cons_tail "0" "" _); [reflexivity | apply isDigits_zeros_app, Hs]. }
  destruct (digitsValue_cons _ _ Hd) as (_ & _ & _ & ->).
  change (digitOf "0") with 0. lia.
Qed.

Lemma length_append (a b : string) :
  String.length (a ++ b) = (String.length a + String.length b)%nat.
Proof.
  induction a as [| c a IH]; [reflexivity |]. cbn. now rewrite IH.
Qed.

Lemma length_zeros k : String.length (zeros k) = k.
Proof.
  induction k as [| k IH]; [reflexivity |]. cbn. now rewrite IH.
Qed.

Lemma padStart_length_ge width s : (width <= String.length (padStart width s))%nat.
Proof.
  unfold padStart. rewrite length_append, length_zeros. lia.
Qed.

Lemma removeFirstDot_lacks s : lacks "." s = true -> PostBalance.removeFirstDot s = s.
Proof.
  induction s as [| c s IH]; [reflexivity |].
  cbn [lacks PostBalance.removeFirstDot]. intros Hl.
  apply andb_true_iff in Hl as [Hc Hl]. apply negb_true_iff in Hc. rewrite Hc.
  now rewrite IH.
Qed.

Lemma removeFirstDot_at_dot a b :
  lacks "." a = true -> PostBalance.removeFirstDot (a ++ String "." b) = (a ++ b)%string.
Proof.
  induction a as [| c a IH]; [reflexivity |].
  cbn [lacks PostBalance.removeFirstDot append]. intros Hl.
  apply andb_true_iff in Hl as [Hc Hl]. apply negb_true_iff in Hc. rewrite Hc.
  now rewrite IH.
Qed.

(** The digit count of the printed amount: the digits of the integer part
    and the decimals that are left after the trailing zeros are dropped. *)
Lemma digitsCount_of_trimmed (v : Z) :
  0 <= v ->
  PostBalance.digitsCountFromSolString (PostBalance.lamportsToSolStringTrim v)
  = Z.of_nat (String.length (dec (v / 1000000000))
              + String.length (PostBalance.trimTrailingZeros
                                 (padStart 9 (dec (v mod 1000000000))))).
Proof.
  intros Hv. unfold PostBalance.digitsCountFromSolString, PostBalance.lamportsToSolStringTrim.
  destruct (Z.ltb_spec v 0) as [Hneg | _]; [lia |].
  rewrite Z.quot_div_nonneg, Z.rem_mod_nonneg by lia.
  destruct (String.eqb_spec (PostBalance.trimTrailingZeros
                               (padStart 9 (dec (v mod 1000000000)))) "") as [-> | Hne].
  - rewrite removeFirstDot_lacks by apply lacks_dot_dec. cbn [String.length]. f_equal. lia.
  - change (dec (v / 1000000000) ++ "." ++ ?x)%string
      with (dec (v / 1000000000) ++ String "." x)%string.
    rewrite removeFirstDot_at_dot by apply lacks_dot_dec.
    now rewrite length_append.
Qed.

(** What a match of the post-balance rule says about the amount. *)
Lemma postBalance_match_arith (p : Z) :
  PostBalance.isFiveDigitsPostBalanceLamports (Fin p) = true ->
  0 < Z.abs p /\ Z.abs p mod 100000 = 0 /\ Z.abs p < 100000 * LAMPORTS_PER_SOL.
Proof.
  unfold PostBalance.isFiveDigitsPostBalanceLamports.
  cbn [num_or0 num_abs isFinite negb orb num_le0].
  destruct (Z.leb_spec (Z.abs p) 0) as [Hle | Hpos]; [discriminate |].
  intros Hfive. apply Z.eqb_eq in Hfive.
  set (v := Z.abs p) in *.
  rewrite digitsCount_of_trimmed in Hfive by lia.
  set (fs := padStart 9 (dec (v mod 1000000000))) in *.
  pose proof (dec_length_pos (v / 1000000000)) as Hint1.
  assert (Hfs : isDigits fs = true) by (apply isDigits_zeros_app, isDigits_dec).
  assert (Hfv : digitsValue fs = v mod 1000000000).
  { unfold fs, padStart. rewrite digitsValue_zeros_app by apply isDigits_dec.
    apply digitsValue_dec. apply Z.mod_pos_bound. lia. }
  pose proof (padStart_length_ge 9 (dec (v mod 1000000000))) as Hlen9. fold fs in Hlen9.
  pose proof (digitsValue_trim fs Hfs) as Htrim.
  pose proof (digitsValue_bounds _ (isDigits_dec (v / 1000000000))) as Hib.
  rewrite digitsValue_dec in Hib by (apply Z.div_pos; lia).
  remember (String.length (dec (v / 1000000000))) as li.
  remember (String.length (PostBalance.trimTrailingZeros fs)) as lt.
  remember (String.length fs) as lf.
  assert (Hli : (li <= 5)%nat) by lia.
  assert (Hlt : (lt <= 4)%nat) by lia.
  split; [exact Hpos |]. split.
  - assert (Hfrac : (v mod 1000000000) mod 100000 = 0).
    { rewrite <- Hfv, Htrim.
      replace (Z.of_nat lf - Z.of_nat lt) with (5 + (Z.of_nat lf - Z.of_nat lt - 5)) by lia.
      rewrite Z.pow_add_r by lia.
      rewrite Z.mul_assoc, (Z.mul_comm _ (10 ^ 5)), <- Z.mul_assoc, Z.mul_comm.
      change (10 ^ 5) with 100000. apply Z.mod_mul. lia. }
    rewrite (Z.div_mod v 1000000000) by lia.
    replace 1000000000 with (100000 * 10000) at 1 by reflexivity.
    rewrite <- Z.mul_assoc, Z.add_comm, Z.mul_comm, Z_mod_plus_full. exact Hfrac.
  - unfold LAMPORTS_PER_SOL.
    assert (Hpow : 10 ^ Z.of_nat li <= 10 ^ 5) by (apply Z.pow_le_mono_r; lia).
    change (10 ^ 5) with 100000 in Hpow.
    pose proof (Z.div_mod v 1000000000 ltac:(lia)) as Hdm.
    pose proof (Z.mod_pos_bound v 1000000000 ltac:(lia)) as Hmb.
    lia.
Qed.

Lemma postBalance_match_exact (p : Z) :
  PostBalance.isFiveDigitsPostBalanceLamports (Fin p) = true ->
  Z.abs p < 10 * LAMPORTS_PER_SOL ->
  ExactDelta.isFiveDigitsByDestDeltaExact (Fin p) = true
  /\ isFiveDigitsLamports_4dpCut p = true.
Proof.
  intros Hfive H10.
  destruct (postBalance_match_arith p Hfive) as (Hpos & Hmod & _).
  split.
  - rewrite exact_isFive_fin.
    rewrite Z.rem_mod_nonneg, Hmod by lia.
    destruct (Z.leb_spec (Z.abs p) 0) as [Hle | _]; [lia |]. cbn [negb andb Z.eqb].
    apply Z.leb_le. unfold LAMPORTS_PER_SOL in H10.
    assert (Z.abs p / 100000 < 100000) by (apply Z.div_lt_upper_bound; lia). lia.
  - rewrite isFiveDigits_cut_below_ten_sol. apply Z.ltb_lt. exact H10.
Qed.

(** X24: a post-balance the digit rule of the post-balance variant accepts
    is a positive multiple of 100000 lamports (four decimals of SOL at most)
    below 100000 SOL, printed with five digits; below 10 SOL it is also
    accepted by the exact rule and by the truncating rule.  The converse
    fails: 1.234 SOL passes the exact rule and prints four digits only. *)
Theorem post_balance_match_shape (p : Z) :
  PostBalance.isFiveDigitsPostBalanceLamports (Fin p) = true ->
  0 < Z.abs p
  /\ Z.abs p mod 100000 = 0
  /\ Z.abs p < 100000 * LAMPORTS_PER_SOL
  /\ PostBalance.digitsCountFromSolString (PostBalance.lamportsToSolStringTrim (Z.abs p)) = 5
  /\ (Z.abs p < 10 * LAMPORTS_PER_SOL ->
      ExactDelta.isFiveDigitsByDestDeltaExact (Fin p) = true
      /\ isFiveDigitsLamports_4dpCut p = true)
  /\ (ExactDelta.isFiveDigitsByDestDeltaExact (Fin 1234000000) = true
      /\ PostBalance.lamportsToSolStringTrim 1234000000 = "1.234"%string
      /\ PostBalance.isFiveDigitsPostBalanceLamports (Fin 1234000000) = false).
Proof.
  intros Hfive.
  destruct (postBalance_match_arith p Hfive) as (Hpos & Hmod & Hlt).
  split; [exact Hpos |]. split; [exact Hmod |]. split; [exact Hlt |]. split.
  - revert Hfive. unfold PostBalance.isFiveDigitsPostBalanceLamports.
    cbn [num_or0 num_abs isFinite negb orb num_le0].
    destruct (Z.abs p <=? 0); [discriminate |]. apply Z.eqb_eq.
  - split; [| repeat split; reflexivity].
    apply postBalance_match_exact, Hfive.
Qed.

Section PostBalanceTurn.
Context `{Platform}.



End PostBalanceTurn.

Lemma post_balance_match_shape_witness :
  PostBalance.isFiveDigitsPostBalanceLamports (Fin 1234500000) = true
  /\ Z.abs 1234500000 mod 100000 = 0.
Proof.
  split; [vm_compute; reflexivity |].
  apply (post_balance_match_shape 1234500000). vm_compute. reflexivity.
Defined.

